(** * fogofdog-frontend: scripts/apply_skin.py

    A shallow embedding of the map-tile cartoon skin generator
    ([scripts/apply_skin.py]) and the properties its specification states.

    Conventions of the embedding:
    - Python [float] is IEEE-754 binary64 and [numpy.float32] is binary32;
      both are computed with the executable specification of the Standard
      Library ([SpecFloat], round to nearest even).
    - An 8-bit channel ([numpy.uint8], a band of a Pillow ["RGB"] image) is
      an integer of [Z]; its range is the predicate [uint8].
    - Pillow's filters that the script only calls (Gaussian blur, colour
      enhancement, Lanczos resize, the PNG codec) are the operations of the
      class [Pillow]; the C library's [tan], [cos] and [log] are those of
      [Libm]; the network and the operating system's answers about paths
      are an [Environment].
    - Code that reads and writes files, prints or raises runs in the monad
      [Py] over a [World].  Files are keyed by the path string the program
      hands to the operating system; two strings that name one file (links,
      [a] and [./a]) are outside the model, as are input/output errors
      after a file has been opened (a full disk).
    - Paths built with [pathlib] are those of [PurePosixPath]. *)

From Stdlib Require Import ZArith List Bool Lia SpecFloat Ascii String.
From stdpp Require Import gmap strings list pretty sorting.

Local Open Scope Z_scope.

(** ** IEEE-754 binary formats *)

(** Operations of one binary format, [prec] bits of mantissa and infinities
    at exponent [emax]. *)
Section Format.
Variables prec emax : Z.

(** An integer converted to the format (exact when it fits [prec] bits). *)
Definition fmt_of_Z (z : Z) : spec_float := binary_normalize prec emax z 0 false.

(** A finite value of a wider format rounded into this one. *)
Definition fmt_round (x : spec_float) : spec_float :=
  match x with
  | S754_finite s m e => binary_round prec emax s m e
  | _ => x
  end.

End Format.

Definition is_nan (x : spec_float) : bool :=
  match x with S754_nan => true | _ => false end.

Definition is_finite (x : spec_float) : bool :=
  match x with S754_zero _ | S754_finite _ _ _ => true | _ => false end.

(** The integer part of a float, rounding toward zero: what C's conversion
    to an integer type and Python's [int()] compute.  [None] for NaN and the
    infinities. *)
Definition trunc (x : spec_float) : option Z :=
  match x with
  | S754_zero _ => Some 0
  | S754_finite s m e =>
      let a := match e with
               | Zneg p => Z.shiftr (Zpos m) (Zpos p)
               | _ => Zpos m * 2 ^ e
               end in
      Some (cond_Zopp s a)
  | _ => None
  end.

(** Python [float]: binary64. *)
Module F64.
Definition prec : Z := 53.
Definition emax : Z := 1024.
Definition add := SFadd prec emax.
Definition sub := SFsub prec emax.
Definition mul := SFmul prec emax.
Definition div := SFdiv prec emax.
Definition ltb := SFltb.
Definition leb := SFleb.
Definition eqb := SFeqb.
Definition of_Z := fmt_of_Z prec emax.
(** The literal [m]e[e10] of the program text, [-6 <= e10 <= 0] and
    [|m| < 2^53]: numerator and power of ten are exact, so the one division
    rounds the decimal correctly, as the Python parser does. *)
Definition lit (m e10 : Z) : spec_float := div (of_Z m) (of_Z (10 ^ (- e10))).
End F64.

(** [numpy.float32]: binary32. *)
Module F32.
Definition prec : Z := 24.
Definition emax : Z := 128.
Definition add := SFadd prec emax.
Definition sub := SFsub prec emax.
Definition mul := SFmul prec emax.
Definition div := SFdiv prec emax.
Definition sqrt := SFsqrt prec emax.
Definition ltb := SFltb.
Definition leb := SFleb.
Definition of_Z := fmt_of_Z prec emax.
(** A Python scalar operand of a float32 array is cast to float32. *)
Definition of_F64 := fmt_round prec emax.
Definition lit (m e10 : Z) : spec_float := of_F64 (F64.lit m e10).
End F32.

(** ** Pixels and images *)

(** The three bands of a pixel, over a channel type [A]. *)
Record rgb (A : Type) := RGB { red : A; green : A; blue : A }.
Arguments RGB {A} _ _ _.
Arguments red {A} _.
Arguments green {A} _.
Arguments blue {A} _.

Definition rgb_map {A B} (f : A -> B) (p : rgb A) : rgb B :=
  RGB (f (red p)) (f (green p)) (f (blue p)).

Definition rgb_zip {A B C} (f : A -> B -> C) (p : rgb A) (q : rgb B) : rgb C :=
  RGB (f (red p) (red q)) (f (green p) (green q)) (f (blue p) (blue q)).

Definition rgb_all {A} (P : A -> Prop) (p : rgb A) : Prop :=
  P (red p) /\ P (green p) /\ P (blue p).

(** A raster: Pillow's ["RGB"] image when [A] is [Z], the [(h, w, 3)] numpy
    array made from it when [A] is a float.  Pixels are in row-major order. *)
Record raster (A : Type) := Raster {
  width : nat;
  height : nat;
  pixels : list (rgb A)
}.
Arguments Raster {A} _ _ _.
Arguments width {A} _.
Arguments height {A} _.
Arguments pixels {A} _.

Definition image := raster Z.
Definition ndarray := raster spec_float.

Definition size {A} (im : raster A) : nat * nat := (width im, height im).

(** An elementwise operation on a raster (Pillow's point operations, numpy's
    broadcasting over the last axis). *)
Definition raster_map {A B} (f : rgb A -> rgb B) (im : raster A) : raster B :=
  Raster (width im) (height im) (map f (pixels im)).

Definition uint8 (v : Z) : Prop := 0 <= v <= 255.

(** The pixel buffer has [width * height] entries. *)
Definition rectangular {A} (im : raster A) : Prop :=
  length (pixels im) = (width im * height im)%nat.

(** A value of Pillow's ["RGB"] mode. *)
Definition wf_image (im : image) : Prop :=
  rectangular im /\ Forall (rgb_all uint8) (pixels im).

(** ** numpy *)

(** [np.array(img, dtype=np.float32)] *)
Definition np_array (im : image) : ndarray := raster_map (rgb_map F32.of_Z) im.

(** [.astype(np.uint8)] of a float32: C's conversion, the integer part taken
    modulo 256 (NaN and the infinities give 0). *)
Definition astype_uint8 (x : spec_float) : Z :=
  match trunc x with
  | Some z => z mod 256
  | None => 0
  end.

(** [Image.fromarray(arr.astype(np.uint8))] *)
Definition fromarray_uint8 (a : ndarray) : image := raster_map (rgb_map astype_uint8) a.

(** numpy's maximum and minimum of the clip kernel: a NaN first operand is
    returned as it is. *)
Definition np_max (a b : spec_float) : spec_float :=
  if is_nan a then a else if F32.ltb b a then a else b.

Definition np_min (a b : spec_float) : spec_float :=
  if is_nan a then a else if F32.ltb a b then a else b.

(** [np.clip(x, lo, hi)] on one element. *)
Definition np_clip (x lo hi : spec_float) : spec_float := np_min (np_max x lo) hi.

(** [arr.mean(axis=(0, 1))]: per band, the float32 sum of all pixels divided
    by their number.  The sum is accumulated in row-major order; on a raster
    of at most 65793 pixels of 8-bit values every partial sum is an integer
    below [2^24], hence exact in any order. *)
Definition np_sum (xs : list spec_float) : spec_float :=
  fold_left F32.add xs (S754_zero false).

Definition np_mean (a : ndarray) : rgb spec_float :=
  let n := F32.of_Z (Z.of_nat (length (pixels a))) in
  RGB (F32.div (np_sum (map red (pixels a))) n)
      (F32.div (np_sum (map green (pixels a))) n)
      (F32.div (np_sum (map blue (pixels a))) n).

(** [np.linalg.norm(v)] of a vector of three float32: the square root of the
    sum of the squares, accumulated in float32 from the first band on. *)
Definition np_norm (v : rgb spec_float) : spec_float :=
  F32.sqrt (F32.add (F32.add (F32.mul (red v) (red v)) (F32.mul (green v) (green v)))
                    (F32.mul (blue v) (blue v))).

(** ** Pillow *)

(** [ImageOps.posterize(image, bits)]: the lookup table [i & mask] with
    [mask = ~(2 ** (8 - bits) - 1)], applied to every band. *)
Definition posterize_mask (bits : Z) : Z := Z.lnot (2 ^ (8 - bits) - 1).

Definition posterize_lut (bits : Z) (i : Z) : Z := Z.land i (posterize_mask bits).

Definition posterize (im : image) (bits : Z) : image :=
  raster_map (rgb_map (posterize_lut bits)) im.

(** The exceptions of the script. *)
Inductive exn :=
  | FileNotFoundError (path : string)
  | IsADirectoryError (path : string)
  | PermissionError (path : string)
  | UnidentifiedImageError (path : string)
  | OSError (path : string)
  | URLError (url : string)
  | TimeoutError (url : string)
  | ValueError
  | OverflowError
  | ZeroDivisionError.

(** File contents: a sequence of octets. *)
Definition bytes := list Z.

(** The operations of Pillow that the script calls and does not define.
    Every one returns a value of mode ["RGB"]; a filter keeps the size of
    its argument, [resize] returns the requested size, and PNG is lossless. *)
Class Pillow := {
  (** [Image.open(path).convert("RGB")] on the contents of the file; [None]
      when Pillow cannot identify or decode them. *)
  decode_RGB : bytes -> option image;
  (** What [Image.open(path).convert("RGB")] raises on contents that it
      cannot identify or decode: [UnidentifiedImageError] for an unknown
      format, [OSError] for a truncated file, and so on. *)
  decode_error : string -> bytes -> exn;
  (** [img.save(path, "PNG")]: the bytes written. *)
  encode_PNG : image -> bytes;
  (** [img.filter(ImageFilter.GaussianBlur(radius))] *)
  GaussianBlur : spec_float -> image -> image;
  (** [ImageEnhance.Color(img).enhance(factor)] *)
  Color_enhance : image -> spec_float -> image;
  (** [img.resize(size, Image.LANCZOS)] *)
  resize_LANCZOS : image -> nat * nat -> image;

  decode_wf : forall b im, decode_RGB b = Some im -> wf_image im;
  decode_encode : forall im, wf_image im -> decode_RGB (encode_PNG im) = Some im;
  GaussianBlur_wf : forall r im, wf_image im -> wf_image (GaussianBlur r im);
  GaussianBlur_size : forall r im, size (GaussianBlur r im) = size im;
  Color_enhance_wf : forall im f, wf_image im -> wf_image (Color_enhance im f);
  Color_enhance_size : forall im f, size (Color_enhance im f) = size im;
  resize_wf : forall im sz, wf_image im -> wf_image (resize_LANCZOS im sz);
  resize_size : forall im sz, size (resize_LANCZOS im sz) = sz
}.

(** ** The filter chain of [apply_skin] *)

Section Skin.
Context {P : Pillow}.

(** Step 1: [for _ in range(2): blurred = smoothed.filter(GaussianBlur(radius=1.0));
    smoothed = blurred]. *)
Definition smooth (tile_img : image) : image :=
  Nat.iter 2 (GaussianBlur (F64.lit 10 (-1))) tile_img.

(** [ImageEnhance.Color(smoothed).enhance(1.8)] *)
Definition saturate (smoothed : image) : image :=
  Color_enhance smoothed (F64.lit 18 (-1)).

(** Step 2: [ImageOps.posterize(saturated, 4)] of the smoothed, saturated tile. *)
Definition posterized_tile (tile_img : image) : image :=
  posterize (saturate (smooth tile_img)) 4.

(** [vibe_img.resize((32, 32), Image.LANCZOS)] and its mean colour. *)
Definition vibe_small (vibe_img : image) : image :=
  resize_LANCZOS vibe_img (32, 32)%nat.

Definition vibe_mean (vibe_img : image) : rgb spec_float :=
  np_mean (np_array (vibe_small vibe_img)).

Definition post_mean (posterized : image) : rgb spec_float :=
  np_mean (np_array posterized).

(** [np.linalg.norm(vibe_mean - post_mean)] *)
Definition color_distance (posterized vibe_img : image) : spec_float :=
  np_norm (rgb_zip F32.sub (vibe_mean vibe_img) (post_mean posterized)).

(** [(vibe_mean - post_mean) * 0.15] *)
Definition vibe_shift (posterized vibe_img : image) : rgb spec_float :=
  rgb_map (fun d => F32.mul d (F32.lit 15 (-2)))
          (rgb_zip F32.sub (vibe_mean vibe_img) (post_mean posterized)).

(** One element of [np.clip(post_arr + shift, 0, 255)]. *)
Definition shifted_channel (v s : spec_float) : spec_float :=
  np_clip (F32.add v s) (F32.of_Z 0) (F32.of_Z 255).

(** Step 3: the vibe colour influence. *)
Definition influence (posterized vibe_img : image) : image :=
  let post_arr := np_array posterized in
  if F32.ltb (F32.of_Z 20) (color_distance posterized vibe_img) then
    let shift := vibe_shift posterized vibe_img in
    fromarray_uint8 (raster_map (fun p => rgb_zip shifted_channel p shift) post_arr)
  else
    fromarray_uint8 post_arr.

(** One element of [np.clip(final_arr * 1.1 + 5, 0, 255)]. *)
Definition boosted_channel (v : spec_float) : spec_float :=
  np_clip (F32.add (F32.mul v (F32.lit 11 (-1))) (F32.of_Z 5)) (F32.of_Z 0) (F32.of_Z 255).

(** Step 4: the brightness boost, and the conversion back to 8 bits. *)
Definition brighten (influenced_img : image) : image :=
  let final_arr := np_array influenced_img in
  fromarray_uint8 (raster_map (rgb_map boosted_channel) final_arr).

(** The image [apply_skin] saves, from the two images it loads. *)
Definition skin (tile_img vibe_img : image) : image :=
  brighten (influence (posterized_tile tile_img) vibe_img).

End Skin.

(** ** The words of the specification *)

(** The Euclidean distance of two colour vectors over the three channels,
    computed in binary32. *)
Definition euclidean_distance (a b : rgb spec_float) : spec_float :=
  let d := rgb_zip F32.sub a b in
  F32.sqrt (F32.add (F32.add (F32.mul (red d) (red d)) (F32.mul (green d) (green d)))
                    (F32.mul (blue d) (blue d))).

(** Clamping to [0, 255]: a value from 255 on becomes 255, a value up to 0
    becomes 0, a value between them stays. *)
Definition clamp (x : spec_float) : spec_float :=
  if F32.leb (F32.of_Z 255) x then F32.of_Z 255
  else if F32.leb x (F32.of_Z 0) then F32.of_Z 0
  else x.

(** The 8-bit value [q] made from the float [x] is in range, and saturated
    rather than wrapped: 255 when [x] is 255 or more, 0 when [x] is 0 or
    less. *)
Definition saturated (x : spec_float) (q : Z) : Prop :=
  uint8 q
  /\ (F32.leb (F32.of_Z 255) x = true -> q = 255)
  /\ (F32.leb x (F32.of_Z 0) = true -> q = 0).

(** ** Exceptions and effects *)

(** The value of an expression that may raise. *)
Inductive result (A : Type) := Ok (a : A) | Err (e : exn).
Arguments Ok {A} _.
Arguments Err {A} _.

Global Instance result_ret : MRet result := fun A a => Ok a.
Global Instance result_bind : MBind result := fun A B f m =>
  match m with Ok a => f a | Err e => Err e end.

(** The lines the script prints. *)
Inductive line :=
  | Saved_skinned_tile (output_path : string)
  | Downloaded_tile (z x y : Z) (output_path : string)
  | Failed_to_download_tile (z x y : Z) (e : exn)
  | Generating_zoom (zoom cx cy : Z)
  | Tile_generation_complete.

Record World := {
  files : gmap string bytes;
  stdout : list line
}.

(** A computation of the script: it may change the world and then return or
    raise; what it did before raising stays done. *)
Definition Py (A : Type) : Type := World -> result A * World.

Global Instance Py_ret : MRet Py := fun A a w => (Ok a, w).
Global Instance Py_bind : MBind Py := fun A B f m w =>
  match m w with
  | (Ok a, w') => f a w'
  | (Err e, w') => (Err e, w')
  end.

Definition raise {A} (e : exn) : Py A := fun w => (Err e, w).

Definition lift {A} (r : result A) : Py A := fun w => (r, w).

(** [try: body except Exception as e: handler(e)] *)
Definition try_except {A} (body : Py A) (handler : exn -> Py A) : Py A := fun w =>
  match body w with
  | (Ok a, w') => (Ok a, w')
  | (Err e, w') => handler e w'
  end.

Definition print (l : line) : Py unit := fun w =>
  (Ok tt, {| files := files w; stdout := stdout w ++ [l] |}).

(** [f.write(data)] on the file just opened. *)
Definition write (path : string) (data : bytes) : Py unit := fun w =>
  (Ok tt, {| files := <[path := data]> (files w); stdout := stdout w |}).

(** [for x in xs: body(x)] *)
Fixpoint for_each {A} (xs : list A) (body : A -> Py unit) : Py unit :=
  match xs with
  | [] => mret tt
  | x :: xs' => body x;; for_each xs' body
  end.

(** [range(lo, hi)] *)
Definition range (lo hi : Z) : list Z := seqZ lo (hi - lo).

(** [str(n)] of an integer. *)
Definition str (n : Z) : string := pretty n.

(** What lies outside the process: the tile server and the directory tree. *)
Inductive fetch :=
  | Connect_fails (e : exn)   (* [urlopen] raises *)
  | Read_fails (e : exn)      (* [response.read()] raises *)
  | Body (data : bytes).

(** The exception of a fetch that fails. *)
Definition fetch_error (f : fetch) : option exn :=
  match f with
  | Connect_fails e | Read_fails e => Some e
  | Body _ => None
  end.

Class Environment := {
  (** [urllib.request.urlopen(Request(url, headers), timeout=10)] and the
      [read()] of its response. *)
  urlopen : string -> fetch;
  (** [os.makedirs(os.path.dirname(os.path.abspath(path)), exist_ok=True)]:
      the exception it raises for the parent of [path], if any. *)
  makedirs_parent : string -> option exn;
  (** A path that exists and that the process cannot open for reading (a
      directory, a file without read permission): the exception
      [open(path, "rb")] raises. *)
  unreadable : string -> option exn;
  (** The exception [open(path, "wb")] raises, if any (the path is a
      directory, the process may not write there). *)
  open_wb_error : string -> option exn;
  (** The exception [img.save(path, "PNG")] raises when it opens the file,
      if any. *)
  save_error : string -> option exn
}.

(** ** [apply_skin] *)

Section Script.
Context {P : Pillow} {E : Environment}.

Definition os_makedirs_parent (path : string) : Py unit :=
  match makedirs_parent path with
  | Some e => raise e
  | None => mret tt
  end.

(** [os.path.exists(path)]: a file, or a path that cannot be read. *)
Definition os_path_exists (path : string) : Py bool := fun w =>
  (Ok (bool_decide (is_Some (files w !! path))
       || bool_decide (is_Some (unreadable path))), w).

(** [open(path, "wb")]: it raises, or the file is created or truncated. *)
Definition open_wb (path : string) : Py unit :=
  match open_wb_error path with
  | Some e => raise e
  | None => fun w => (Ok tt, {| files := <[path := []]> (files w); stdout := stdout w |})
  end.

(** [Image.open(path).convert("RGB")]: opening the file raises when the
    path cannot be read or does not exist, decoding raises what Pillow
    raises on such contents. *)
Definition Image_open_RGB (path : string) : Py image := fun w =>
  match unreadable path with
  | Some e => (Err e, w)
  | None =>
      match files w !! path with
      | None => (Err (FileNotFoundError path), w)
      | Some b =>
          match decode_RGB b with
          | None => (Err (decode_error path b), w)
          | Some im => (Ok im, w)
          end
      end
  end.

(** [result.save(output_path, "PNG")]: opening the file for writing raises,
    or the encoded image becomes its contents. *)
Definition Image_save_PNG (im : image) (path : string) : Py unit :=
  match save_error path with
  | Some e => raise e
  | None => write path (encode_PNG im)
  end.

Definition apply_skin (tile_path vibe_path output_path : string) : Py unit :=
  tile_img ← Image_open_RGB tile_path;
  vibe_img ← Image_open_RGB vibe_path;
  let result := skin tile_img vibe_img in
  os_makedirs_parent output_path;;
  Image_save_PNG result output_path;;
  print (Saved_skinned_tile output_path).

End Script.

(** ** [lat_lon_to_tile] *)

(** The C library's functions behind [math.tan], [math.cos] and [math.log]. *)
Class Libm := {
  c_tan : spec_float -> spec_float;
  c_cos : spec_float -> spec_float;
  c_log : spec_float -> spec_float
}.

(** [math.pi], the double nearest to pi: 0x1.921fb54442d18p+1. *)
Definition math_pi : spec_float := S754_finite false 7074237752028440 (-51).

(** [math.radians(x)]: [x * (pi / 180)], the factor being a double constant. *)
Definition math_radians (x : spec_float) : spec_float :=
  F64.mul x (F64.div math_pi (F64.of_Z 180)).

(** CPython's wrapper of a libm function of one argument: a NaN from a
    number, or an infinity from a finite number, is a [ValueError]. *)
Definition math_1 (func : spec_float -> spec_float) (x : spec_float) : result spec_float :=
  let r := func x in
  if is_nan r && negb (is_nan x) then Err ValueError
  else if negb (is_nan r) && negb (is_finite r) && is_finite x then Err ValueError
  else Ok r.

Section Projection.
Context {L : Libm}.

Definition math_tan : spec_float -> result spec_float := math_1 c_tan.
Definition math_cos : spec_float -> result spec_float := math_1 c_cos.

(** [math.log(x)]: the logarithm of a positive finite number; zero and the
    negative numbers are domain errors. *)
Definition m_log (x : spec_float) : spec_float :=
  if is_finite x then
    if F64.ltb (F64.of_Z 0) x then c_log x
    else if F64.eqb x (F64.of_Z 0) then S754_infinity true
    else S754_nan
  else if is_nan x then x
  else if F64.ltb (F64.of_Z 0) x then x
  else S754_nan.

Definition math_log : spec_float -> result spec_float := math_1 m_log.

(** [a / b] on floats. *)
Definition truediv (a b : spec_float) : result spec_float :=
  if F64.eqb b (F64.of_Z 0) then Err ZeroDivisionError else Ok (F64.div a b).

(** [int(x)] of a float. *)
Definition int (x : spec_float) : result Z :=
  match trunc x with
  | Some z => Ok z
  | None => Err (if is_nan x then ValueError else OverflowError)
  end.

(** [2 ** zoom] as the float operand it becomes in [... * num_tiles]: an
    integer power for [zoom >= 0] (too large to convert from [2 ** 1024]
    on), the float [2.0 ** zoom] below. *)
Definition num_tiles_float (zoom : Z) : result spec_float :=
  if 0 <=? zoom then
    let f := F64.of_Z (2 ^ zoom) in
    if is_finite f then Ok f else Err OverflowError
  else Ok (SFldexp F64.prec F64.emax (F64.of_Z 1) zoom).

Definition lat_lon_to_tile (lat lon : spec_float) (zoom : Z) : result (Z * Z) :=
  num_tiles ← num_tiles_float zoom;
  q ← truediv (F64.add lon (F64.of_Z 180)) (F64.of_Z 360);
  x ← int (F64.mul q num_tiles);
  let lat_rad := math_radians lat in
  t ← math_tan lat_rad;
  c ← math_cos lat_rad;
  s ← truediv (F64.of_Z 1) c;
  l ← math_log (F64.add t s);
  lp ← truediv l math_pi;
  h ← truediv (F64.sub (F64.of_Z 1) lp) (F64.of_Z 2);
  y ← int (F64.mul h num_tiles);
  mret (x, y).

End Projection.

(** ** Paths *)

(** [pathlib.PurePosixPath]: a path is its root and its components.  The
    string is split at the slashes; empty components and the components
    ["."] are dropped.  The root is ["/"] for a string that starts with a
    slash, and ["//"] for one that starts with exactly two. *)
Record PurePath := {
  root : string;
  parts : list string
}.

Fixpoint split_slash (s : string) : list string :=
  match s with
  | EmptyString => [EmptyString]
  | String a r =>
      if Ascii.eqb a "/" then EmptyString :: split_slash r
      else match split_slash r with
           | h :: t => String a h :: t
           | [] => [String a EmptyString]
           end
  end.

Definition is_part (c : string) : bool :=
  negb (String.eqb c "") && negb (String.eqb c ".").

Definition posix_parts (s : string) : list string :=
  List.filter is_part (split_slash s).

Definition posix_root (s : string) : string :=
  match s with
  | String "/" (String "/" (String "/" _)) => "/"
  | String "/" (String "/" _) => "//"
  | String "/" _ => "/"
  | _ => ""
  end.

(** [Path(s)] *)
Definition Path (s : string) : PurePath :=
  {| root := posix_root s; parts := posix_parts s |}.

(** [p / name]: an absolute [name] replaces [p]. *)
Definition joinpath (p : PurePath) (name : string) : PurePath :=
  match name with
  | String "/" _ => Path name
  | _ => {| root := root p; parts := parts p ++ posix_parts name |}
  end.

(** ["/".join(ps)] *)
Fixpoint join_slash (ps : list string) : string :=
  match ps with
  | [] => ""
  | [p] => p
  | p :: ps' => p +:+ "/" +:+ join_slash ps'
  end.

(** [str(p)] *)
Definition path_str (p : PurePath) : string :=
  match root p, parts p with
  | EmptyString, [] => "."
  | r, ps => r +:+ join_slash ps
  end.

(** ** Batch generation *)

Section Batch.
Context {P : Pillow} {L : Libm} {E : Environment}.

(** [f"https://tile.openstreetmap.org/{z}/{x}/{y}.png"] *)
Definition osm_url (z x y : Z) : string :=
  "https://tile.openstreetmap.org/" +:+ str z +:+ "/" +:+ str x
  +:+ "/" +:+ str y +:+ ".png".

Definition download_osm_tile (z x y : Z) (output_path : string) : Py bool :=
  let url := osm_url z x y in
  os_makedirs_parent output_path;;
  try_except
    match urlopen url with
    | Connect_fails e => raise e
    | Read_fails e => open_wb output_path;; raise e
    | Body data =>
        open_wb output_path;;
        write output_path data;;
        print (Downloaded_tile z x y output_path);;
        mret true
    end
    (fun e => print (Failed_to_download_tile z x y e);; mret false).

Definition center_lat : spec_float := F64.lit 3778825 (-5).
Definition center_lon : spec_float := F64.lit (-1224324) (-4).

Definition zoom_configs : list (Z * Z) := [(13, 1); (14, 1); (15, 2)].

(** [Path(assets_dir) / "skins" / "_raw_tiles"] *)
Definition raw_dir (assets_dir : string) : PurePath :=
  joinpath (joinpath (Path assets_dir) "skins") "_raw_tiles".

(** [Path(assets_dir) / "skins" / "cartoon"] *)
Definition cartoon_dir (assets_dir : string) : PurePath :=
  joinpath (joinpath (Path assets_dir) "skins") "cartoon".

(** [str(dir / str(zoom) / str(x) / f"{y}.png")] *)
Definition tile_path (dir : PurePath) (zoom x y : Z) : string :=
  path_str (joinpath (joinpath (joinpath dir (str zoom)) (str x)) (str y +:+ ".png")).

(** The body of the two inner loops, for the tile [(x, y)]. *)
Definition generate_tile (assets_dir vibe_path : string) (zoom x y : Z) : Py unit :=
  let raw_path := tile_path (raw_dir assets_dir) zoom x y in
  let output_path := tile_path (cartoon_dir assets_dir) zoom x y in
  raw_exists ← os_path_exists raw_path;
  skipped ← (if negb raw_exists
             then downloaded ← download_osm_tile zoom x y raw_path;
                  mret (negb downloaded)
             else mret false);
  if (skipped : bool) then mret tt   (* continue *)
  else apply_skin raw_path vibe_path output_path.

Definition generate_zoom (assets_dir vibe_path : string) (zoom padding : Z) : Py unit :=
  '(cx, cy) ← lift (lat_lon_to_tile center_lat center_lon zoom);
  print (Generating_zoom zoom cx cy);;
  for_each (range (- padding) (padding + 1)) (fun dx =>
    for_each (range (- padding) (padding + 1)) (fun dy =>
      generate_tile assets_dir vibe_path zoom (cx + dx) (cy + dy))).

Definition generate_sf_tiles (assets_dir vibe_path : string) : Py unit :=
  for_each zoom_configs (fun '(zoom, padding) =>
    generate_zoom assets_dir vibe_path zoom padding);;
  print Tile_generation_complete.

End Batch.

(** The tiles the two loops [for dx in range(-padding, padding + 1): for dy
    in range(-padding, padding + 1)] visit around [(cx, cy)], in order. *)
Definition tiles_around (cx cy padding : Z) : list (Z * Z) :=
  dx ← range (- padding) (padding + 1);
  dy ← range (- padding) (padding + 1);
  [(cx + dx, cy + dy)].

(** ** A small implementation of the Pillow interface

    A 3x3 binomial blur with replicated edges, the blend away from the luma
    that Pillow's colour enhancement performs, nearest-neighbour resampling
    and a raw codec.  It shows that the laws of [Pillow] can be met and gives
    the examples something to run on.  On a uniform image it does what every
    normalised filter does: it returns a uniform image of the same colour. *)

Module SimplePillow.

Definition black : rgb Z := RGB 0 0 0.

(** The pixel at column [x] and row [y], coordinates clamped to the image. *)
Definition getpixel (im : image) (x y : Z) : rgb Z :=
  let cx := Z.max 0 (Z.min x (Z.of_nat (width im) - 1)) in
  let cy := Z.max 0 (Z.min y (Z.of_nat (height im) - 1)) in
  nth (Z.to_nat (cy * Z.of_nat (width im) + cx)) (pixels im) black.

(** The image of size [w]x[h] whose pixel at [(x, y)] is [f x y]. *)
Definition init (w h : nat) (f : Z -> Z -> rgb Z) : image :=
  Raster w h (map (fun i => f (Z.of_nat i mod Z.of_nat w) (Z.of_nat i / Z.of_nat w))
                  (seq 0 (w * h))).

Definition tap3 (g : Z -> Z) (x : Z) : Z := g (x - 1) + 2 * g x + g (x + 1).

Definition blur_channel (g : Z -> Z -> Z) (x y : Z) : Z :=
  (tap3 (fun y' => tap3 (fun x' => g x' y') x) y + 8) / 16.

Definition blur (_ : spec_float) (im : image) : image :=
  init (width im) (height im) (fun x y =>
    RGB (blur_channel (fun x' y' => red (getpixel im x' y')) x y)
        (blur_channel (fun x' y' => green (getpixel im x' y')) x y)
        (blur_channel (fun x' y' => blue (getpixel im x' y')) x y)).

(** The luma of [convert("L")]. *)
Definition luma (p : rgb Z) : Z :=
  Z.shiftr (red p * 19595 + green p * 38470 + blue p * 7471 + 32768) 16.

(** One band of [Image.blend(degenerate, image, alpha)]. *)
Definition blend_channel (alpha : spec_float) (in1 in2 : Z) : Z :=
  let temp := F32.add (F32.of_Z in1) (F32.mul alpha (F32.of_Z (in2 - in1))) in
  if F32.leb temp (F32.of_Z 0) then 0
  else if F32.leb (F32.of_Z 255) temp then 255
  else astype_uint8 temp.

Definition enhance (im : image) (factor : spec_float) : image :=
  raster_map (fun p => rgb_map (blend_channel (F32.of_F64 factor) (luma p)) p) im.

Definition resize (im : image) (sz : nat * nat) : image :=
  init (fst sz) (snd sz) (fun x y =>
    getpixel im (x * Z.of_nat (width im) / Z.of_nat (fst sz))
                (y * Z.of_nat (height im) / Z.of_nat (snd sz))).

Definition encode (im : image) : bytes :=
  Z.of_nat (width im) :: Z.of_nat (height im)
    :: flat_map (fun p => [red p; green p; blue p]) (pixels im).

Fixpoint parse (data : bytes) : option (list (rgb Z)) :=
  match data with
  | [] => Some []
  | r :: g :: b :: rest =>
      match parse rest with
      | Some ps => Some (RGB r g b :: ps)
      | None => None
      end
  | _ => None
  end.

Definition uint8b (v : Z) : bool := (0 <=? v) && (v <=? 255).

Definition rgb_uint8b (p : rgb Z) : bool :=
  uint8b (red p) && uint8b (green p) && uint8b (blue p).

Definition decode (b : bytes) : option image :=
  match b with
  | w :: h :: data =>
      match parse data with
      | Some ps =>
          if (0 <=? w) && (0 <=? h)
             && (Z.of_nat (length ps) =? w * h) && forallb rgb_uint8b ps
          then Some (Raster (Z.to_nat w) (Z.to_nat h) ps)
          else None
      | None => None
      end
  | _ => None
  end.

End SimplePillow.

(** ** Sample data *)

(** An image of one colour. *)
Definition uniform (w h : nat) (c : rgb Z) : image := Raster w h (repeat c (w * h)).

Definition gray (v : Z) : rgb Z := RGB v v v.

(** A dark gray tile, and a vibe image of the colour the tile has once it is
    posterized. *)
Definition tile31 : image := uniform 2 2 (gray 31).
Definition vibe16 : image := uniform 3 1 (gray 16).

(** A tile of the colour it keeps when it is posterized, a white vibe
    image, and a posterized image of one bright and one black pixel. *)
Definition tile16 : image := uniform 2 2 (gray 16).
Definition white : image := uniform 1 1 (gray 255).
Definition bright_and_black : image := Raster 2 1 [gray 240; gray 0].

(** The levels of a band that keeps its four high bits. *)
Definition levels16 : list Z := (fun k => 16 * k) <$> seqZ 0 16.

(** The quantisation [round(v / 17) * 17] to sixteen levels from 0 to 255. *)
Definition round17 (v : Z) : Z := (2 * v + 17) / 34 * 17.

(** The float [k] units in the last place above [x]. *)
Definition ulps (x : spec_float) (k : Z) : spec_float :=
  match x with
  | S754_finite s m e => S754_finite s (Z.to_pos (Zpos m + k)) e
  | _ => x
  end.

(** [y] is within [n] units in the last place of [x]. *)
Definition near (x y : spec_float) (n : Z) : Prop :=
  exists k, - n <= k <= n /\ y = ulps x k.

(** The correctly rounded doubles of the three library calls that
    [lat_lon_to_tile] makes for the latitude 37.78825: the tangent and the
    cosine of [math.radians(37.78825)], and the logarithm of
    [tan + 1 / cos]. *)
Definition sf_lat_rad : spec_float := S754_finite false 5940512549624193 (-53).
Definition sf_tan : spec_float := S754_finite false 6983741824190200 (-53).
Definition sf_cos : spec_float := S754_finite false 7118215627601231 (-53).
Definition sf_log_arg : spec_float := S754_finite false 4595302581848802 (-51).
Definition sf_log : spec_float := S754_finite false 6424878374982858 (-53).

(** A table of the C library at those arguments. *)
Definition sf_libm : Libm := {|
  c_tan x := if F64.eqb x sf_lat_rad then sf_tan else S754_nan;
  c_cos x := if F64.eqb x sf_lat_rad then sf_cos else S754_nan;
  c_log x := if F64.eqb x sf_log_arg then sf_log else S754_nan
|}.

(** A machine without network on a writable disk. *)
Definition offline : Environment := {|
  urlopen url := Connect_fails (URLError url);
  makedirs_parent _ := None;
  unreadable _ := None;
  open_wb_error _ := None;
  save_error _ := None
|}.

(** A disk that holds the sample tile and vibe image. *)
Definition sample_world : World := {|
  files := {[ "tile.png" := SimplePillow.encode tile31;
              "vibe.png" := SimplePillow.encode vibe16 ]};
  stdout := []
|}.

(** A world with no file at all. *)
Definition empty_world : World := {| files := ∅; stdout := [] |}.

(** A tile server that accepts the connection and then stalls. *)
Definition stalling : Environment := {|
  urlopen url := Read_fails (TimeoutError url);
  makedirs_parent _ := None;
  unreadable _ := None;
  open_wb_error _ := None;
  save_error _ := None
|}.

(** The lines of a log that report a failed fetch, and those that report a
    skinned tile. *)
Definition is_failure (l : line) : bool :=
  match l with Failed_to_download_tile _ _ _ _ => true | _ => false end.

Definition is_saved (l : line) : bool :=
  match l with Saved_skinned_tile _ => true | _ => false end.

(** The tile that a line reports as failed. *)
Definition failed_tile (l : line) : option (Z * Z) :=
  match l with Failed_to_download_tile _ x y _ => Some (x, y) | _ => None end.

(** The C library seen through the three values it returns in one call of
    [lat_lon_to_tile]. *)
Definition libm_values (t c l : spec_float) : Libm := {|
  c_tan _ := t;
  c_cos _ := c;
  c_log _ := l
|}.

(** ** What a batch does with each tile *)

Section Download.
Context {E : Environment}.

(** The exception [download_osm_tile(z, x, y, path)] reports when the
    fetch fails: that of the connection, else that of opening the file,
    else that of reading the response. *)
Definition download_failure (z x y : Z) (path : string) : option exn :=
  match urlopen (osm_url z x y) with
  | Connect_fails e => Some e
  | Read_fails e => Some (default e (open_wb_error path))
  | Body _ => open_wb_error path
  end.

(** What the call leaves in the file, when it has opened it: the body, or
    nothing when reading the response failed. *)
Definition download_writes (z x y : Z) (path : string) : option bytes :=
  match urlopen (osm_url z x y), open_wb_error path with
  | Body data, None => Some data
  | Read_fails _, None => Some []
  | _, _ => None
  end.

End Download.

Section TileFate.
Context {E : Environment}.
Variable assets_dir : string.

(** The raw tile that a batch started on the files [fs] skins for the tile
    [(zoom, x, y)]: the cached file, or else the body it fetches and stores;
    [None] when the fetch fails. *)
Definition tile_source (fs : gmap string bytes) (zoom x y : Z) : option bytes :=
  let raw_path := tile_path (raw_dir assets_dir) zoom x y in
  match fs !! raw_path with
  | Some b => Some b
  | None =>
      match download_failure zoom x y raw_path with
      | Some _ => None
      | None => download_writes zoom x y raw_path
      end
  end.

(** The cache entry of the tile after the batch. *)
Definition raw_after (fs : gmap string bytes) (zoom x y : Z) : option bytes :=
  let raw_path := tile_path (raw_dir assets_dir) zoom x y in
  match fs !! raw_path with
  | Some b => Some b
  | None => download_writes zoom x y raw_path
  end.

(** The lines the batch prints for the tile. *)
Definition tile_log (fs : gmap string bytes) (zoom : Z) (t : Z * Z) : list line :=
  let raw_path := tile_path (raw_dir assets_dir) zoom t.1 t.2 in
  let output_path := tile_path (cartoon_dir assets_dir) zoom t.1 t.2 in
  match fs !! raw_path with
  | Some _ => [Saved_skinned_tile output_path]
  | None =>
      match download_failure zoom t.1 t.2 raw_path with
      | Some e => [Failed_to_download_tile zoom t.1 t.2 e]
      | None => [Downloaded_tile zoom t.1 t.2 raw_path; Saved_skinned_tile output_path]
      end
  end.

(** The lines the batch prints for one zoom level. *)
Definition zoom_log (fs : gmap string bytes) (zoom cx cy padding : Z) : list line :=
  Generating_zoom zoom cx cy
    :: concat (map (tile_log fs zoom) (tiles_around cx cy padding)).

End TileFate.

(** A tile server that answers every request with the sample tile. *)
Definition online : Environment := {|
  urlopen _ := Body (SimplePillow.encode tile31);
  makedirs_parent _ := None;
  unreadable _ := None;
  open_wb_error _ := None;
  save_error _ := None
|}.

(** A tile server that cannot be reached for the centre tile of zoom level
    14 and answers every other request with the sample tile. *)
Definition flaky : Environment := {|
  urlopen url := if String.eqb url (osm_url 14 2619 6331)
                 then Connect_fails (URLError url)
                 else Body (SimplePillow.encode tile31);
  makedirs_parent _ := None;
  unreadable _ := None;
  open_wb_error _ := None;
  save_error _ := None
|}.

(** A disk that holds the vibe image only. *)
Definition vibe_only_world : World := {|
  files := {[ "vibe.png" := SimplePillow.encode vibe16 ]};
  stdout := []
|}.

(** The order in which the loops visit tiles: by column, and by row within
    a column. *)
Definition visited_before (a b : Z * Z) : Prop :=
  a.1 < b.1 \/ (a.1 = b.1 /\ a.2 < b.2).

(** ** The poles *)

(** The tangent and the cosine of [math.radians(-90.0)], the double just
    above -pi/2, correctly rounded: -0x1.d02967c31cdb5p+53 and
    0x1.1a62633145c07p-54. *)
Definition south_pole_tan : spec_float := S754_finite true 8165619676597685 1.
Definition south_pole_cos : spec_float := S754_finite false 4967757600021511 (-106).

(** ** The default vibe image *)

(** The drawing operations of Pillow's [ImageDraw] that the script calls.
    Both paint on the image they are given and keep its size and mode. *)
Class ImageDraw := {
  (** [draw.rectangle([x0, y0, x1, y1], fill=color)] *)
  draw_rectangle : image -> Z * Z * Z * Z -> rgb Z -> image;
  (** [draw.line([(x0, y0), (x1, y1)], fill=color, width=width)] *)
  draw_line : image -> Z * Z -> Z * Z -> rgb Z -> Z -> image;

  draw_rectangle_wf : forall im box c,
    wf_image im -> rgb_all uint8 c -> wf_image (draw_rectangle im box c);
  draw_rectangle_size : forall im box c, size (draw_rectangle im box c) = size im;
  draw_line_wf : forall im p q c width,
    wf_image im -> rgb_all uint8 c -> wf_image (draw_line im p q c width);
  draw_line_size : forall im p q c width, size (draw_line im p q c width) = size im
}.

(** [Image.new("RGB", (w, h), color)] *)
Definition Image_new (w h : nat) (color : rgb Z) : image :=
  Raster w h (repeat color (w * h)).

(** [enumerate(xs)] *)
Definition enumerate {A} (xs : list A) : list (Z * A) :=
  imap (fun i x => (Z.of_nat i, x)) xs.

(** [range(lo, hi, step)] for a positive step. *)
Definition range_step (lo hi step : Z) : list Z :=
  map (fun k => lo + k * step) (seqZ 0 ((hi - lo + step - 1) / step)).

Definition colors : list (rgb Z) :=
  [ RGB 255 230 50; RGB 80 210 120; RGB 100 170 250;
    RGB 255 120 100; RGB 200 160 255; RGB 255 180 50 ].

Definition block_size : Z := 85.

Definition outline : rgb Z := RGB 40 40 40.

Section DefaultVibe.
Context {D : ImageDraw}.

(** The image [create_default_vibe_image] draws: six blocks on a pale
    background, then the outlines. *)
Definition default_vibe : image :=
  let img := Image_new 256 256 (RGB 255 255 200) in
  let img :=
    fold_left (fun img '(i, color) =>
                 let x0 := (i mod 3) * block_size in
                 let y0 := (i / 3) * block_size in
                 draw_rectangle img (x0, y0, x0 + block_size - 2, y0 + block_size - 2) color)
              (enumerate colors) img in
  fold_left (fun img i =>
               let img := draw_line img (i, 0) (i, 255) outline 3 in
               draw_line img (0, i) (255, i) outline 3)
            (range_step 0 256 block_size) img.

End DefaultVibe.

(** ** The command line *)

(** The lines of [main], [_check_dependencies] and
    [create_default_vibe_image], and those of the functions they call. *)
Inductive main_line :=
  | Script_line (l : line)
  | Missing_dependencies (missing : list string)
  | Install_with (missing : list string)
  | Vibe_image_not_found (vibe_path : string)
  | Created_default_vibe_image (output_path : string).

(** A run of the program: the files and what was printed so far. *)
Record Session := {
  disk : gmap string bytes;
  terminal : list main_line
}.

(** How a call ends: it returns, an exception propagates, or [sys.exit]. *)
Inductive outcome (A : Type) :=
  | Returns (a : A)
  | Raises (e : exn)
  | SystemExit (code : Z).
Arguments Returns {A} _.
Arguments Raises {A} _.
Arguments SystemExit {A} _.

Definition Cmd (A : Type) : Type := Session -> outcome A * Session.

Global Instance Cmd_ret : MRet Cmd := fun A a s => (Returns a, s).
Global Instance Cmd_bind : MBind Cmd := fun A B f m s =>
  match m s with
  | (Returns a, s') => f a s'
  | (Raises e, s') => (Raises e, s')
  | (SystemExit code, s') => (SystemExit code, s')
  end.

(** A call of one of the functions above: it works on the files and its
    lines follow those already printed. *)
Definition call {A} (m : Py A) : Cmd A := fun s =>
  match m {| files := disk s; stdout := [] |} with
  | (r, w) =>
      (match r with Ok a => Returns a | Err e => Raises e end,
       {| disk := files w; terminal := terminal s ++ map Script_line (stdout w) |})
  end.

Definition say (l : main_line) : Cmd unit := fun s =>
  (Returns tt, {| disk := disk s; terminal := terminal s ++ [l] |}).

(** [sys.exit(code)] *)
Definition sys_exit {A} (code : Z) : Cmd A := fun s => (SystemExit code, s).

(** [parser.error(message)]: argparse writes the usage and the message to
    the standard error stream and exits with status 2. *)
Definition parser_error {A} : Cmd A := sys_exit 2.

(** Which of the two packages can be imported. *)
Class Installation := {
  numpy_importable : bool;
  PIL_importable : bool
}.

(** The namespace [parser.parse_args()] returns: an option that was not
    given is [None], a flag [False], [--assets-dir] its default. *)
Module args.
Record Namespace := {
  tile : option string;
  vibe : option string;
  output : option string;
  generate_sf_tiles : bool;
  assets_dir : string;
  create_vibe : bool
}.
End args.

(** The truth value of an optional string: [None] and the empty string are
    false. *)
Definition truthy (s : option string) : bool :=
  match s with
  | Some (String _ _) => true
  | _ => false
  end.

(** [s or default] *)
Definition or_ (s : option string) (default : string) : string :=
  match s with
  | Some (String a r) => String a r
  | _ => default
  end.

Section Main.
Context {P : Pillow} {D : ImageDraw} {L : Libm} {E : Environment} {I : Installation}.

Definition _check_dependencies : Cmd unit :=
  let missing := (if numpy_importable then [] else ["numpy"])
                 ++ (if PIL_importable then [] else ["Pillow"]) in
  match missing with
  | [] => mret tt
  | _ =>
      say (Missing_dependencies missing);;
      say (Install_with missing);;
      sys_exit 1
  end.

Definition create_default_vibe_image (output_path : string) : Cmd unit :=
  let img := default_vibe in
  call (os_makedirs_parent output_path);;
  call (Image_save_PNG img output_path);;
  say (Created_default_vibe_image output_path).

(** [main()] from the parsed arguments on. *)
Definition main (a : args.Namespace) : Cmd unit :=
  _check_dependencies;;
  if args.create_vibe a then
    let vibe_path := or_ (args.vibe a) "assets/skins/cartoon_vibe.png" in
    create_default_vibe_image vibe_path
  else if args.generate_sf_tiles a then
    let vibe_path := or_ (args.vibe a) "assets/skins/cartoon_vibe.png" in
    found ← call (os_path_exists vibe_path);
    (if negb found
     then say (Vibe_image_not_found vibe_path);;
          create_default_vibe_image vibe_path
     else mret tt);;
    call (generate_sf_tiles (args.assets_dir a) vibe_path)
  else if negb (truthy (args.tile a)) || negb (truthy (args.vibe a))
          || negb (truthy (args.output a))
  then parser_error
  else
    match args.tile a, args.vibe a, args.output a with
    | Some tile_path, Some vibe_path, Some output_path =>
        call (apply_skin tile_path vibe_path output_path)
    | _, _, _ => parser_error
    end.

End Main.

(** A drawing implementation for examples: a rectangle fills its box, both
    corners included; a line of width 3 along an axis fills the box one
    pixel around it. *)
Module SimpleDraw.

Definition fill_box (im : image) (x0 y0 x1 y1 : Z) (c : rgb Z) : image :=
  Raster (width im) (height im)
    (imap (fun k p =>
             let x := Z.of_nat k mod Z.of_nat (width im) in
             let y := Z.of_nat k / Z.of_nat (width im) in
             if (x0 <=? x) && (x <=? x1) && (y0 <=? y) && (y <=? y1) then c else p)
          (pixels im)).

Definition rectangle (im : image) (box : Z * Z * Z * Z) (c : rgb Z) : image :=
  match box with (x0, y0, x1, y1) => fill_box im x0 y0 x1 y1 c end.

Definition line (im : image) (p q : Z * Z) (c : rgb Z) (width : Z) : image :=
  let r := (width - 1) / 2 in
  fill_box im (Z.min p.1 q.1 - r) (Z.min p.2 q.2 - r)
              (Z.max p.1 q.1 + r) (Z.max p.2 q.2 + r) c.

End SimpleDraw.

(** Both packages installed. *)
Definition installed : Installation := {|
  numpy_importable := true;
  PIL_importable := true
|}.

(** A machine without Pillow. *)
Definition without_Pillow : Installation := {|
  numpy_importable := true;
  PIL_importable := false
|}.

(** The command line [--generate-sf-tiles]. *)
Definition generate_sf_tiles_args : args.Namespace := {|
  args.tile := None;
  args.vibe := None;
  args.output := None;
  args.generate_sf_tiles := true;
  args.assets_dir := "assets";
  args.create_vibe := false
|}.

(** A session on an empty disk. *)
Definition fresh_session : Session := {| disk := ∅; terminal := [] |}.

(** The command line [--create-vibe --generate-sf-tiles]. *)
Definition create_vibe_args : args.Namespace := {|
  args.tile := None;
  args.vibe := None;
  args.output := None;
  args.generate_sf_tiles := true;
  args.assets_dir := "assets";
  args.create_vibe := true
|}.

(** * Proofs *)

(** ** The small implementation meets the laws of the interface *)

Module SimplePillowLaws.
Import SimplePillow.

Lemma rgb_uint8b_spec p : rgb_uint8b p = true <-> rgb_all uint8 p.
Proof.
  unfold rgb_uint8b, uint8b, rgb_all, uint8.
  rewrite !andb_true_iff, !Z.leb_le. tauto.
Qed.

Lemma forallb_uint8 ps : forallb rgb_uint8b ps = true <-> Forall (rgb_all uint8) ps.
Proof.
  rewrite forallb_forall, Forall_forall. setoid_rewrite <- list_elem_of_In.
  split; intros H p Hp; apply rgb_uint8b_spec, H, Hp.
Qed.

Lemma parse_encode ps :
  parse (flat_map (fun p : rgb Z => [red p; green p; blue p]) ps) = Some ps.
Proof.
  induction ps as [|[r g b] ps IH]; [reflexivity|].
  cbn [flat_map app red green blue parse]. now rewrite IH.
Qed.

Lemma decode_wf b im : decode b = Some im -> wf_image im.
Proof.
  destruct b as [|w [|h data]]; try discriminate. cbn [decode].
  destruct (parse data) as [ps|]; try discriminate.
  destruct (_ && _) eqn:Hc; try discriminate.
  intros [= <-]. rewrite !andb_true_iff, !Z.leb_le, Z.eqb_eq in Hc.
  destruct Hc as [[[Hw Hh] Hlen] Hall].
  split; [|now apply forallb_uint8].
  unfold rectangular; cbn. lia.
Qed.

Lemma decode_encode im : wf_image im -> decode (encode im) = Some im.
Proof.
  intros [Hrect Hall]. unfold decode, encode. rewrite parse_encode.
  assert (Hc : (0 <=? Z.of_nat (width im)) && (0 <=? Z.of_nat (height im))
               && (Z.of_nat (length (pixels im)) =? Z.of_nat (width im) * Z.of_nat (height im))
               && forallb rgb_uint8b (pixels im) = true).
  { rewrite !andb_true_iff, !Z.leb_le, Z.eqb_eq. unfold rectangular in Hrect.
    repeat split; try lia. now apply forallb_uint8. }
  rewrite Hc, !Nat2Z.id. now destruct im.
Qed.

Lemma init_size w h f : size (init w h f) = (w, h).
Proof. reflexivity. Qed.

Lemma init_wf w h f :
  (forall x y, rgb_all uint8 (f x y)) -> wf_image (init w h f).
Proof.
  intros Hf. split.
  - unfold rectangular, init; cbn. now rewrite length_map, length_seq.
  - unfold init; cbn. apply Forall_forall. intros p Hp.
    apply list_elem_of_In, in_map_iff in Hp as (i & <- & _). apply Hf.
Qed.

Lemma getpixel_uint8 im x y :
  Forall (rgb_all uint8) (pixels im) -> rgb_all uint8 (getpixel im x y).
Proof.
  intros Hall. unfold getpixel.
  set (i := Z.to_nat _). destruct (nth_in_or_default i (pixels im) black) as [Hin | ->].
  - rewrite Forall_forall in Hall. apply Hall, list_elem_of_In, Hin.
  - unfold rgb_all, uint8, black; cbn. lia.
Qed.

Lemma blur_channel_uint8 g x y :
  (forall x' y', uint8 (g x' y')) -> uint8 (blur_channel g x y).
Proof.
  intros Hg. unfold blur_channel, tap3, uint8 in *.
  pose proof (Hg (x - 1) (y - 1)). pose proof (Hg x (y - 1)). pose proof (Hg (x + 1) (y - 1)).
  pose proof (Hg (x - 1) y). pose proof (Hg x y). pose proof (Hg (x + 1) y).
  pose proof (Hg (x - 1) (y + 1)). pose proof (Hg x (y + 1)). pose proof (Hg (x + 1) (y + 1)).
  split.
  - apply Z.div_pos; lia.
  - apply Z.lt_succ_r, Z.div_lt_upper_bound; lia.
Qed.

Lemma blur_wf r im : wf_image im -> wf_image (blur r im).
Proof.
  intros [_ Hall]. apply init_wf. intros x y.
  repeat split; cbn; apply blur_channel_uint8; intros x' y';
    apply (getpixel_uint8 im x' y' Hall).
Qed.

Lemma blend_channel_uint8 alpha in1 in2 : uint8 (blend_channel alpha in1 in2).
Proof.
  unfold blend_channel, uint8. destruct (F32.leb _ _); [lia|].
  destruct (F32.leb _ _); [lia|].
  unfold astype_uint8. destruct (trunc _); [|lia].
  pose proof (Z.mod_pos_bound z 256). lia.
Qed.

Lemma enhance_wf im f : wf_image im -> wf_image (enhance im f).
Proof.
  intros [Hrect Hall]. split.
  - unfold rectangular, enhance, raster_map in *; cbn. now rewrite length_map.
  - unfold enhance, raster_map; cbn. apply Forall_forall. intros p Hp.
    apply list_elem_of_In, in_map_iff in Hp as (q & <- & _).
    repeat split; cbn; apply blend_channel_uint8.
Qed.

Lemma resize_wf im sz : wf_image im -> wf_image (resize im sz).
Proof. intros [_ Hall]. apply init_wf. intros x y. now apply getpixel_uint8. Qed.

End SimplePillowLaws.

(** The implementation as an instance of the interface. *)
Definition simple_pillow : Pillow := {|
  decode_RGB := SimplePillow.decode;
  decode_error := fun path _ => UnidentifiedImageError path;
  encode_PNG := SimplePillow.encode;
  GaussianBlur := SimplePillow.blur;
  Color_enhance := SimplePillow.enhance;
  resize_LANCZOS := SimplePillow.resize;
  decode_wf := SimplePillowLaws.decode_wf;
  decode_encode := SimplePillowLaws.decode_encode;
  GaussianBlur_wf := SimplePillowLaws.blur_wf;
  GaussianBlur_size := fun r im => eq_refl;
  Color_enhance_wf := SimplePillowLaws.enhance_wf;
  Color_enhance_size := fun im f => eq_refl;
  resize_wf := SimplePillowLaws.resize_wf;
  resize_size := fun im sz => match sz with (w, h) => eq_refl end
|}.

(** ** Checking a property of every 8-bit value by evaluation *)

Lemma uint8_cases (p : Z -> bool) :
  forallb p (seqZ 0 256) = true -> forall v, uint8 v -> p v = true.
Proof.
  intros H v Hv. rewrite forallb_forall in H. apply H.
  apply list_elem_of_In, elem_of_seqZ. unfold uint8 in Hv. lia.
Qed.

(** A float32 made from an 8-bit value converts back to it. *)
Lemma astype_of_uint8 v : uint8 v -> astype_uint8 (F32.of_Z v) = v.
Proof.
  intros Hv. apply Z.eqb_eq.
  apply (uint8_cases (fun v => astype_uint8 (F32.of_Z v) =? v)); [|exact Hv].
  vm_compute. reflexivity.
Qed.

Lemma astype_uint8_range x : uint8 (astype_uint8 x).
Proof.
  unfold astype_uint8, uint8. destruct (trunc x) as [z|]; [|lia].
  pose proof (Z.mod_pos_bound z 256). lia.
Qed.

Lemma boosted_uint8 v :
  uint8 v -> astype_uint8 (boosted_channel (F32.of_Z v)) = Z.min 255 ((11 * v + 50) / 10).
Proof.
  intros Hv. apply Z.eqb_eq.
  apply (uint8_cases (fun v => astype_uint8 (boosted_channel (F32.of_Z v))
                               =? Z.min 255 ((11 * v + 50) / 10))); [|exact Hv].
  vm_compute. reflexivity.
Qed.

Lemma posterize_lut_4 v : posterize_lut 4 v = 16 * (v / 16).
Proof.
  unfold posterize_lut, posterize_mask. change (2 ^ (8 - 4) - 1) with (Z.ones 4).
  rewrite <- Z.ldiff_land, Z.ldiff_ones_r by lia.
  rewrite Z.shiftr_div_pow2, Z.shiftl_mul_pow2 by lia. change (2 ^ 4) with 16. lia.
Qed.

Definition f255 : spec_float := S754_finite false 16711680 (-16).

Lemma of_Z_255 : F32.of_Z 255 = f255.
Proof. reflexivity. Qed.

Lemma of_Z_0 : F32.of_Z 0 = S754_zero false.
Proof. reflexivity. Qed.

(** Comparison of floats is antisymmetric. *)
Lemma SFcompare_antisym x y : SFcompare y x = option_map CompOpp (SFcompare x y).
Proof.
  destruct x as [sx|sx| |sx mx ex], y as [sy|sy| |sy my ey];
    try destruct sx; try destruct sy; try reflexivity; cbn [SFcompare option_map];
    change (PosDef.Pos.compare_cont Eq my mx) with (Pos.compare my mx);
    change (PosDef.Pos.compare_cont Eq mx my) with (Pos.compare mx my);
    change (IntDef.Z.compare ey ex) with (Z.compare ey ex);
    change (IntDef.Z.compare ex ey) with (Z.compare ex ey);
    rewrite (Z.compare_antisym ex ey), (Pos.compare_antisym mx my);
    destruct (ex ?= ey); cbn; try reflexivity;
    destruct (mx ?= my)%positive; reflexivity.
Qed.

Lemma SFltb_asym x y : SFltb x y = true -> SFltb y x = false.
Proof.
  unfold SFltb. rewrite (SFcompare_antisym x y).
  destruct (SFcompare x y) as [[]|]; cbn; congruence.
Qed.

Lemma SFleb_not_ltb x y : SFleb x y = true -> SFltb y x = false.
Proof.
  unfold SFleb, SFltb. rewrite (SFcompare_antisym x y).
  destruct (SFcompare x y) as [[]|]; cbn; congruence.
Qed.

(** Two finite floats of which the first is below or equal and not below
    the second are the same float. *)
Lemma SFleb_antisym_finite s1 m1 e1 s2 m2 e2 :
  SFleb (S754_finite s1 m1 e1) (S754_finite s2 m2 e2) = true ->
  SFltb (S754_finite s1 m1 e1) (S754_finite s2 m2 e2) = false ->
  S754_finite s1 m1 e1 = S754_finite s2 m2 e2.
Proof.
  unfold SFleb, SFltb. cbn [SFcompare].
  change (IntDef.Z.compare e1 e2) with (Z.compare e1 e2).
  change (PosDef.Pos.compare_cont Eq m1 m2) with (Pos.compare m1 m2).
  destruct s1, s2; try discriminate;
    destruct (e1 ?= e2) eqn:He; try discriminate;
    destruct (m1 ?= m2)%positive eqn:Hm; try discriminate;
    apply Z.compare_eq in He; apply Pos.compare_eq in Hm; now subst.
Qed.

Lemma np_clip_above x :
  F32.ltb (F32.of_Z 255) x = true -> np_clip x (F32.of_Z 0) (F32.of_Z 255) = F32.of_Z 255.
Proof.
  intros H. pose proof (SFltb_asym _ _ H) as H'.
  unfold np_clip, np_max, np_min, F32.ltb in *. rewrite of_Z_255, of_Z_0 in *.
  destruct x as [s|s| |s m e]; try discriminate.
  - destruct s; try discriminate. reflexivity.
  - destruct s; try discriminate. cbn [is_nan].
    change (SFltb (S754_zero false) (S754_finite false m e)) with true. cbn [is_nan].
    now rewrite H'.
Qed.

Lemma np_clip_below x :
  F32.ltb x (F32.of_Z 0) = true -> np_clip x (F32.of_Z 0) (F32.of_Z 255) = F32.of_Z 0.
Proof.
  unfold np_clip, np_max, np_min, F32.ltb. rewrite of_Z_255, of_Z_0.
  destruct x as [s|s| |s m e]; try discriminate.
  - destruct s; try discriminate. reflexivity.
  - destruct s; try discriminate. reflexivity.
Qed.

Lemma np_clip_inside x :
  F32.leb (F32.of_Z 0) x = true -> F32.leb x (F32.of_Z 255) = true ->
  astype_uint8 (np_clip x (F32.of_Z 0) (F32.of_Z 255)) = astype_uint8 x.
Proof.
  intros H0 H1. pose proof (SFleb_not_ltb _ _ H1) as H1'.
  unfold np_clip, np_max, np_min, F32.ltb, F32.leb in *. rewrite of_Z_255, of_Z_0 in *.
  destruct x as [s|s| |s m e]; try discriminate.
  - reflexivity.
  - destruct s; try discriminate.
  - destruct s; try discriminate. cbn [is_nan].
    change (SFltb (S754_zero false) (S754_finite false m e)) with true. cbn [is_nan].
    destruct (SFltb (S754_finite false m e) f255) eqn:Hlt; [reflexivity|].
    now rewrite (SFleb_antisym_finite _ _ _ _ _ _ H1 Hlt).
Qed.

(** ** Rasters *)

Lemma raster_map_size {A B} (f : rgb A -> rgb B) im : size (raster_map f im) = size im.
Proof. reflexivity. Qed.

Lemma raster_map_rectangular {A B} (f : rgb A -> rgb B) im :
  rectangular im -> rectangular (raster_map f im).
Proof. unfold rectangular, raster_map; cbn. now rewrite length_map. Qed.

Lemma raster_map_compose {A B C} (g : rgb B -> rgb C) (f : rgb A -> rgb B) im :
  raster_map g (raster_map f im) = raster_map (fun p => g (f p)) im.
Proof. unfold raster_map; cbn. now rewrite map_map. Qed.

Lemma raster_map_ext_Forall {A B} (f g : rgb A -> rgb B) im :
  Forall (fun p => f p = g p) (pixels im) -> raster_map f im = raster_map g im.
Proof. intros H. unfold raster_map. f_equal. now apply map_ext_Forall. Qed.

Lemma raster_map_id_Forall {A} (f : rgb A -> rgb A) im :
  Forall (fun p => f p = p) (pixels im) -> raster_map f im = im.
Proof.
  intros H. unfold raster_map. rewrite (map_ext_Forall _ (fun p => p)) by exact H.
  rewrite map_id. now destruct im.
Qed.

Lemma Forall_map_pixels {A B} (Q : rgb B -> Prop) (f : rgb A -> rgb B) im :
  (forall p, p ∈ pixels im -> Q (f p)) -> Forall Q (pixels (raster_map f im)).
Proof.
  intros H. unfold raster_map; cbn. apply Forall_forall. intros q Hq.
  apply list_elem_of_In, in_map_iff in Hq as (p & <- & Hp). apply H, list_elem_of_In, Hp.
Qed.

(** The conversion to 8 bits always gives an image of mode RGB. *)
Lemma fromarray_uint8_wf a : rectangular a -> wf_image (fromarray_uint8 a).
Proof.
  intros Hr. split; [now apply raster_map_rectangular|].
  apply Forall_map_pixels. intros p _. repeat split; cbn; apply astype_uint8_range.
Qed.

Lemma np_array_rectangular im : rectangular im -> rectangular (np_array im).
Proof. apply raster_map_rectangular. Qed.

(** An image converted to float32 and back is the image. *)
Lemma fromarray_np_array im :
  Forall (rgb_all uint8) (pixels im) -> fromarray_uint8 (np_array im) = im.
Proof.
  intros Hall. unfold fromarray_uint8, np_array. rewrite raster_map_compose.
  apply raster_map_id_Forall. eapply Forall_impl; [exact Hall|].
  intros [r g b] (Hr & Hg & Hb); cbn in *. unfold rgb_map; cbn.
  now rewrite !astype_of_uint8.
Qed.

Lemma posterize_lut_uint8 v : uint8 v -> uint8 (posterize_lut 4 v).
Proof.
  rewrite posterize_lut_4. unfold uint8. intros Hv.
  pose proof (Z.mul_div_le v 16). assert (0 <= v / 16) by (apply Z.div_pos; lia). lia.
Qed.

Lemma posterize_wf im : wf_image im -> wf_image (posterize im 4).
Proof.
  intros [Hr Hall]. split; [now apply raster_map_rectangular|].
  apply Forall_map_pixels. intros p Hp. rewrite Forall_forall in Hall.
  destruct (Hall p Hp) as (? & ? & ?). repeat split; cbn; now apply posterize_lut_uint8.
Qed.

Lemma influence_wf {P : Pillow} posterized vibe_img :
  wf_image posterized -> wf_image (influence posterized vibe_img).
Proof.
  intros [Hr _]. unfold influence.
  destruct (F32.ltb _ _); apply fromarray_uint8_wf;
    repeat apply raster_map_rectangular; exact Hr.
Qed.

Lemma influence_size {P : Pillow} posterized vibe_img :
  size (influence posterized vibe_img) = size posterized.
Proof. unfold influence. destruct (F32.ltb _ _); reflexivity. Qed.

Lemma brighten_wf influenced : wf_image influenced -> wf_image (brighten influenced).
Proof.
  intros [Hr _]. apply fromarray_uint8_wf. repeat apply raster_map_rectangular. exact Hr.
Qed.

Lemma brighten_size influenced : size (brighten influenced) = size influenced.
Proof. reflexivity. Qed.

Lemma smooth_wf {P : Pillow} tile_img : wf_image tile_img -> wf_image (smooth tile_img).
Proof. intros Hwf. unfold smooth; cbn. now do 2 apply GaussianBlur_wf. Qed.

Lemma smooth_size {P : Pillow} tile_img : size (smooth tile_img) = size tile_img.
Proof. unfold smooth; cbn. now rewrite !GaussianBlur_size. Qed.

Lemma posterized_tile_wf {P : Pillow} tile_img :
  wf_image tile_img -> wf_image (posterized_tile tile_img).
Proof. intros Hwf. apply posterize_wf, Color_enhance_wf, smooth_wf, Hwf. Qed.

Lemma posterized_tile_size {P : Pillow} tile_img :
  size (posterized_tile tile_img) = size tile_img.
Proof.
  unfold posterized_tile, posterize, saturate. rewrite raster_map_size, Color_enhance_size.
  apply smooth_size.
Qed.

Lemma skin_wf {P : Pillow} tile_img vibe_img :
  wf_image tile_img -> wf_image (skin tile_img vibe_img).
Proof. intros Hwf. apply brighten_wf, influence_wf, posterized_tile_wf, Hwf. Qed.

Lemma skin_size {P : Pillow} tile_img vibe_img :
  size (skin tile_img vibe_img) = size tile_img.
Proof.
  unfold skin. rewrite brighten_size, influence_size. apply posterized_tile_size.
Qed.

(** Below the threshold the influence step returns the posterized tile. *)
Lemma influence_near {P : Pillow} posterized vibe_img :
  wf_image posterized ->
  F32.ltb (F32.of_Z 20) (color_distance posterized vibe_img) = false ->
  influence posterized vibe_img = posterized.
Proof.
  intros [_ Hall] Hd. unfold influence. rewrite Hd. now apply fromarray_np_array.
Qed.

Lemma brighten_pixels influenced :
  Forall (rgb_all uint8) (pixels influenced) ->
  pixels (brighten influenced)
  = map (rgb_map (fun v => Z.min 255 ((11 * v + 50) / 10))) (pixels influenced).
Proof.
  intros Hall. unfold brighten, fromarray_uint8, np_array. rewrite !raster_map_compose.
  cbn. apply map_ext_Forall. eapply Forall_impl; [exact Hall|].
  intros [r g b] (Hr & Hg & Hb); cbn in *. unfold rgb_map; cbn.
  now rewrite !boosted_uint8.
Qed.

Lemma uniform_wf w h c : rgb_all uint8 c -> wf_image (uniform w h c).
Proof.
  intros Hc. split.
  - unfold rectangular, uniform; cbn. apply repeat_length.
  - apply Forall_forall. intros p Hp. apply list_elem_of_In, repeat_spec in Hp. now subst.
Qed.

Lemma gray_uint8 v : uint8 v -> rgb_all uint8 (gray v).
Proof. intros Hv. unfold rgb_all, gray; cbn. auto. Qed.

Lemma tile31_wf : wf_image tile31.
Proof. apply uniform_wf, gray_uint8. unfold uint8; lia. Qed.

Lemma vibe16_wf : wf_image vibe16.
Proof. apply uniform_wf, gray_uint8. unfold uint8; lia. Qed.

(** ** Posterization *)

Lemma levels16_spec l : l ∈ levels16 <-> exists k, 0 <= k < 16 /\ l = 16 * k.
Proof.
  unfold levels16. rewrite list_elem_of_fmap. setoid_rewrite elem_of_seqZ.
  split; intros (k & H1 & H2); exists k; (split; [lia|assumption]) || (split; [assumption|lia]).
Qed.

Lemma posterize_lut_level v : uint8 v -> posterize_lut 4 v ∈ levels16.
Proof.
  intros Hv. rewrite posterize_lut_4. apply levels16_spec. exists (v / 16).
  split; [|reflexivity]. unfold uint8 in Hv. split.
  - apply Z.div_pos; lia.
  - apply Z.div_lt_upper_bound; lia.
Qed.

(** C2, the claim as stated fails: the posterized value of the brightest
    input is 240 where [round(v / 17) * 17] gives 255, and no 8-bit input is
    posterized to 255. *)
Lemma posterize_never_reaches_255 :
  posterize_lut 4 255 = 240 /\ round17 255 = 255
  /\ ~ (exists v, uint8 v /\ posterize_lut 4 v = 255).
Proof.
  split; [reflexivity|]. split; [reflexivity|].
  intros (v & _ & Hv). rewrite posterize_lut_4 in Hv. lia.
Qed.

(** C2, amended: posterization clears the four low bits of every band,
    [v -> 16 * (v / 16)]; the values a band can take after the stage are
    exactly the sixteen levels 0, 16, ..., 240, of which 240 is the largest
    (255 is not among them). *)
Theorem posterize_keeps_high_nibble (im : image) :
  wf_image im ->
  pixels (posterize im 4) = map (rgb_map (fun v => 16 * (v / 16))) (pixels im)
  /\ Forall (rgb_all (fun l => l ∈ levels16)) (pixels (posterize im 4))
  /\ (forall l, l ∈ levels16 <-> exists v, uint8 v /\ posterize_lut 4 v = l)
  /\ length levels16 = 16%nat /\ NoDup levels16
  /\ Forall (fun l => 0 <= l <= 240) levels16.
Proof.
  intros [_ Hall]. split; [|split; [|split; [|split; [|split]]]].
  - unfold posterize, raster_map; cbn. apply map_ext. intros [r g b].
    unfold rgb_map; cbn. now rewrite !posterize_lut_4.
  - apply Forall_map_pixels. intros p Hp. rewrite Forall_forall in Hall.
    destruct (Hall p Hp) as (? & ? & ?). repeat split; cbn; now apply posterize_lut_level.
  - intros l. split.
    + intros Hl. apply levels16_spec in Hl as (k & Hk & ->). exists (16 * k). split.
      * unfold uint8; lia.
      * rewrite posterize_lut_4. f_equal. rewrite Z.mul_comm. now apply Z.div_mul.
    + intros (v & Hv & <-). now apply posterize_lut_level.
  - reflexivity.
  - unfold levels16. apply NoDup_fmap_2; [|apply NoDup_seqZ]. intros x y. lia.
  - apply Forall_forall. intros l Hl. apply levels16_spec in Hl as (k & Hk & ->). lia.
Qed.

Lemma posterize_keeps_high_nibble_witness :
  wf_image tile31
  /\ pixels (posterize tile31 4) = map (rgb_map (fun v => 16 * (v / 16))) (pixels tile31).
Proof. split; [exact tile31_wf | exact (proj1 (posterize_keeps_high_nibble tile31 tile31_wf))]. Defined.

(** ** Brightness *)

(** C10: the brightness stage maps an 8-bit value [v] to the integer part of
    [v * 1.1 + 5] clamped at 255, the fraction being dropped (14.9 gives 14,
    158.9 gives 158); the conversion of a positive float is the quotient of
    its mantissa by the power of two, never a rounding to nearest. *)
Theorem brighten_truncates (influenced : image) :
  wf_image influenced ->
  pixels (brighten influenced)
  = map (rgb_map (fun v => Z.min 255 ((11 * v + 50) / 10))) (pixels influenced)
  /\ boosted_channel (F32.of_Z 9) = S754_finite false 15623783 (-20)
  /\ astype_uint8 (boosted_channel (F32.of_Z 9)) = 14
  /\ astype_uint8 (F32.lit 1589 (-1)) = 158
  /\ (forall m p, astype_uint8 (S754_finite false m (Zneg p))
                  = (Zpos m / 2 ^ Zpos p) mod 256).
Proof.
  intros [_ Hall]. split; [now apply brighten_pixels|].
  split; [reflexivity|]. split; [reflexivity|]. split; [reflexivity|].
  intros m p. unfold astype_uint8, trunc, cond_Zopp.
  now rewrite Z.shiftr_div_pow2 by lia.
Qed.

Lemma brighten_truncates_witness :
  wf_image tile31 /\ pixels (brighten tile31) = pixels (uniform 2 2 (gray 39)).
Proof. split; [exact tile31_wf | exact (proj1 (brighten_truncates tile31 tile31_wf))]. Defined.

(** ** Clamping *)

Lemma SFcompare_None x y : SFcompare x y = None -> is_nan x || is_nan y = true.
Proof.
  destruct x as [sx|sx| |sx mx ex], y as [sy|sy| |sy my ey];
    try destruct sx; try destruct sy; try discriminate; try reflexivity;
    cbn [SFcompare]; destruct (IntDef.Z.compare ex ey); try discriminate;
    destruct (PosDef.Pos.compare_cont Eq mx my); discriminate.
Qed.

(** Of two numbers, one is below or equal to the other. *)
Lemma SFleb_total x y :
  is_nan x = false -> is_nan y = false -> SFleb x y = false -> SFleb y x = true.
Proof.
  intros Hx Hy. unfold SFleb. rewrite (SFcompare_antisym x y).
  destruct (SFcompare x y) as [[]|] eqn:Hc; cbn; try congruence.
  apply SFcompare_None in Hc. rewrite Hx, Hy in Hc. discriminate.
Qed.

(** No float is 255 or more and 0 or less. *)
Lemma SFleb_255_0 x :
  F32.leb (F32.of_Z 255) x = true -> F32.leb x (F32.of_Z 0) = true -> False.
Proof.
  unfold F32.leb. rewrite of_Z_255, of_Z_0.
  destruct x as [s|s| |s m e]; try destruct s; discriminate.
Qed.

(** numpy's clip and the conversion to 8 bits clamp as the specification
    says. *)
Lemma astype_clip x :
  astype_uint8 (np_clip x (F32.of_Z 0) (F32.of_Z 255)) = astype_uint8 (clamp x).
Proof.
  unfold clamp. destruct (F32.leb (F32.of_Z 255) x) eqn:H255.
  - destruct (F32.ltb (F32.of_Z 255) x) eqn:Hlt; [now rewrite np_clip_above|].
    unfold F32.leb, F32.ltb in *. rewrite of_Z_255 in *.
    destruct x as [s|s| |s m e]; try destruct s; try discriminate.
    rewrite <- (SFleb_antisym_finite _ _ _ _ _ _ H255 Hlt). reflexivity.
  - destruct (F32.leb x (F32.of_Z 0)) eqn:H0.
    + destruct (F32.ltb x (F32.of_Z 0)) eqn:Hlt; [now rewrite np_clip_below|].
      unfold F32.leb, F32.ltb in *. rewrite of_Z_0 in *.
      destruct x as [s|s| |s m e]; try destruct s; try discriminate; reflexivity.
    + destruct (is_nan x) eqn:Hn; [destruct x; try discriminate; reflexivity|].
      apply np_clip_inside; apply SFleb_total; auto.
Qed.

Lemma saturated_clip x : saturated x (astype_uint8 (np_clip x (F32.of_Z 0) (F32.of_Z 255))).
Proof.
  rewrite astype_clip. split; [apply astype_uint8_range|]. unfold clamp. split; intros H.
  - rewrite H. reflexivity.
  - destruct (F32.leb (F32.of_Z 255) x) eqn:H255; [destruct (SFleb_255_0 x H255 H)|].
    rewrite H. reflexivity.
Qed.

(** ** The Euclidean distance on whole numbers *)







(** ** The vibe colour influence *)

Section Influence.
Context {P : Pillow}.

Lemma color_distance_euclidean posterized vibe_img :
  color_distance posterized vibe_img
  = euclidean_distance (np_mean (np_array (resize_LANCZOS vibe_img (32, 32)%nat)))
                       (np_mean (np_array posterized)).
Proof. reflexivity. Qed.


Lemma influence_not_far posterized vibe_img :
  wf_image posterized ->
  F32.ltb (F32.of_Z 20) (color_distance posterized vibe_img) = false ->
  influence posterized vibe_img = posterized.
Proof. apply influence_near. Qed.

End Influence.

(** C1, the claim as stated fails.  The tile is uniformly gray 31: it is
    posterized to gray 16.  A vibe image of gray 16 is at distance 0 of the
    posterized tile, so the run with it shifts nothing and saves gray 22.
    The tile itself, used as the vibe, is at distance 25.98 of its own
    posterized version: that run does shift, and saves gray 24. *)
Lemma near_vibe_differs_from_tile_as_vibe :
  wf_image tile31 /\ wf_image vibe16
  /\ F32.leb (color_distance (P := simple_pillow) (posterized_tile (P := simple_pillow) tile31) vibe16)
             (F32.of_Z 20) = true
  /\ F32.ltb (F32.of_Z 20)
             (color_distance (P := simple_pillow) (posterized_tile (P := simple_pillow) tile31) tile31) = true
  /\ skin (P := simple_pillow) tile31 vibe16 = uniform 2 2 (gray 22)
  /\ skin (P := simple_pillow) tile31 tile31 = uniform 2 2 (gray 24)
  /\ skin (P := simple_pillow) tile31 vibe16 <> skin (P := simple_pillow) tile31 tile31.
Proof.
  split; [exact tile31_wf|]. split; [exact vibe16_wf|].
  assert (H1 : skin (P := simple_pillow) tile31 vibe16 = uniform 2 2 (gray 22))
    by (vm_compute; reflexivity).
  assert (H2 : skin (P := simple_pillow) tile31 tile31 = uniform 2 2 (gray 24))
    by (vm_compute; reflexivity).
  split; [vm_compute; reflexivity|]. split; [vm_compute; reflexivity|].
  split; [exact H1|]. split; [exact H2|].
  rewrite H1, H2. discriminate.
Qed.

(** The same two runs on any implementation of Pillow whose filters keep
    these uniform images uniform. *)
Lemma near_vibe_differs_on_any_pillow {P : Pillow} :
  posterized_tile tile31 = uniform 2 2 (gray 16) ->
  pixels (vibe_small tile31) = repeat (gray 31) 1024 ->
  pixels (vibe_small vibe16) = repeat (gray 16) 1024 ->
  F32.leb (color_distance (posterized_tile tile31) vibe16) (F32.of_Z 20) = true
  /\ skin tile31 vibe16 <> skin tile31 tile31.
Proof.
  intros Hp Ht Hv.
  assert (Hm16 : vibe_mean vibe16 = rgb_map F32.of_Z (gray 16)).
  { unfold vibe_mean, np_mean, np_array, raster_map. cbn [pixels]. rewrite Hv.
    vm_compute. reflexivity. }
  assert (Hm31 : vibe_mean tile31 = rgb_map F32.of_Z (gray 31)).
  { unfold vibe_mean, np_mean, np_array, raster_map. cbn [pixels]. rewrite Ht.
    vm_compute. reflexivity. }
  unfold skin, influence, color_distance, vibe_shift. rewrite Hp, Hm16, Hm31.
  split; [vm_compute; reflexivity|]. vm_compute. discriminate.
Qed.

(** C1, amended: when the vibe's mean colour is within distance 20 of the
    posterized tile's, the shift stage is a no-op and the output is the
    brightened posterized tile, the same for every vibe image within that
    distance.  It is the output of the run with the tile as its own vibe
    when the tile's mean colour is within that distance too: then the
    shift stage is a no-op in both runs. *)
Theorem no_shift_below_threshold {P : Pillow} (tile_img vibe_img : image) :
  wf_image tile_img ->
  F32.leb (color_distance (posterized_tile tile_img) vibe_img) (F32.of_Z 20) = true ->
  influence (posterized_tile tile_img) vibe_img = posterized_tile tile_img
  /\ skin tile_img vibe_img = brighten (posterized_tile tile_img)
  /\ (forall vibe_img',
        F32.leb (color_distance (posterized_tile tile_img) vibe_img') (F32.of_Z 20) = true ->
        skin tile_img vibe_img = skin tile_img vibe_img')
  /\ (F32.leb (color_distance (posterized_tile tile_img) tile_img) (F32.of_Z 20) = true ->
      influence (posterized_tile tile_img) tile_img = posterized_tile tile_img
      /\ skin tile_img vibe_img = skin tile_img tile_img).
Proof.
  intros Hwf Hd.
  assert (Hnear : forall v,
    F32.leb (color_distance (posterized_tile tile_img) v) (F32.of_Z 20) = true ->
    influence (posterized_tile tile_img) v = posterized_tile tile_img).
  { intros v Hv. apply influence_near; [now apply posterized_tile_wf|].
    now apply SFleb_not_ltb. }
  split; [now apply Hnear|]. split; [|split].
  - unfold skin. now rewrite Hnear.
  - intros v Hv. unfold skin. now rewrite !Hnear.
  - intros Ht. split; [now apply Hnear|]. unfold skin. now rewrite !Hnear.
Qed.

Lemma no_shift_below_threshold_witness :
  wf_image tile16
  /\ F32.leb (color_distance (P := simple_pillow) (posterized_tile (P := simple_pillow) tile16)
                vibe16) (F32.of_Z 20) = true
  /\ F32.leb (color_distance (P := simple_pillow) (posterized_tile (P := simple_pillow) tile16)
                tile16) (F32.of_Z 20) = true
  /\ skin (P := simple_pillow) tile16 vibe16 = skin (P := simple_pillow) tile16 tile16.
Proof.
  assert (Hwf : wf_image tile16) by (apply uniform_wf, gray_uint8; unfold uint8; lia).
  split; [exact Hwf|]. split; [vm_compute; reflexivity|]. split; [vm_compute; reflexivity|].
  apply (no_shift_below_threshold (P := simple_pillow) tile16 vibe16 Hwf);
    vm_compute; reflexivity.
Defined.



(** ** Channel bounds *)

(** C6: after each of the five stages every band of every pixel is in
    [0, 255].  The two stages that compute in floating point saturate: a
    band of the shifted image is 255 when the band plus its shift is 255 or
    more and 0 when it is 0 or less, and a band of the saved image is 255
    when 1.1 times the band plus 5 is 255 or more, where wrapping would give
    the value modulo 256; the boost never lowers a band. *)
Theorem channels_stay_in_range {P : Pillow} (tile_img vibe_img : image) :
  wf_image tile_img ->
  let post := posterized_tile tile_img in
  let shifted := influence post vibe_img in
  let saved := skin tile_img vibe_img in
  let shift := vibe_shift post vibe_img in
  let boost v := F32.add (F32.mul (F32.of_Z v) (F32.lit 11 (-1))) (F32.of_Z 5) in
  wf_image (smooth tile_img)
  /\ wf_image (saturate (smooth tile_img))
  /\ wf_image post
  /\ wf_image shifted
  /\ wf_image saved
  /\ (F32.ltb (F32.of_Z 20) (color_distance post vibe_img) = true ->
      forall i p q,
        pixels post !! i = Some p -> pixels shifted !! i = Some q ->
        saturated (F32.add (F32.of_Z (red p)) (red shift)) (red q)
        /\ saturated (F32.add (F32.of_Z (green p)) (green shift)) (green q)
        /\ saturated (F32.add (F32.of_Z (blue p)) (blue shift)) (blue q))
  /\ (forall i q r,
        pixels shifted !! i = Some q -> pixels saved !! i = Some r ->
        (saturated (boost (red q)) (red r) /\ red q <= red r)
        /\ (saturated (boost (green q)) (green r) /\ green q <= green r)
        /\ (saturated (boost (blue q)) (blue r) /\ blue q <= blue r)).
Proof.
  intros Hwf post shifted saved shift boost.
  assert (Hpost : wf_image post) by now apply posterized_tile_wf.
  assert (Hshifted : wf_image shifted) by now apply influence_wf.
  split; [now apply smooth_wf|].
  split; [now apply Color_enhance_wf, smooth_wf|].
  split; [exact Hpost|]. split; [exact Hshifted|]. split; [now apply skin_wf|]. split.
  - intros Hfar i p q Hp Hq. unfold shifted in Hq. unfold influence in Hq.
    rewrite Hfar in Hq. unfold fromarray_uint8, np_array in Hq.
    rewrite !raster_map_compose in Hq. cbn [pixels raster_map] in Hq.
    rewrite list_lookup_fmap, Hp in Hq. injection Hq as <-.
    unfold rgb_zip, rgb_map, shifted_channel; cbn [red green blue]. fold shift.
    repeat split; apply saturated_clip.
  - intros i q r Hq Hr. unfold saved, skin in Hr. fold post shifted in Hr.
    destruct Hshifted as [_ Hall].
    assert (Hband : rgb_all uint8 q).
    { rewrite Forall_forall in Hall. apply Hall. eapply list_elem_of_lookup_2, Hq. }
    pose proof Hr as Hr'. unfold brighten, fromarray_uint8, np_array in Hr.
    rewrite !raster_map_compose in Hr. cbn [pixels raster_map] in Hr.
    rewrite list_lookup_fmap, Hq in Hr. injection Hr as <-.
    rewrite (brighten_pixels _ Hall), list_lookup_fmap, Hq in Hr'.
    destruct Hband as (Hr0 & Hg0 & Hb0). unfold uint8 in *.
    assert (Hup : forall v, 0 <= v <= 255 ->
                  v <= astype_uint8 (boosted_channel (F32.of_Z v))).
    { intros v Hv. rewrite boosted_uint8 by exact Hv.
      assert (v + 5 <= (11 * v + 50) / 10) by (apply Z.div_le_lower_bound; lia). lia. }
    unfold rgb_map, boosted_channel; cbn [red green blue].
    repeat split; try apply saturated_clip; now apply Hup.
Qed.

Lemma channels_stay_in_range_witness :
  wf_image bright_and_black
  /\ influence (P := simple_pillow) bright_and_black white = Raster 2 1 [gray 255; gray 20]
  /\ exists q, pixels (influence (P := simple_pillow)
                         (posterized_tile (P := simple_pillow) tile31) tile31) !! 0%nat = Some q
               /\ uint8 (red q).
Proof.
  assert (Hwf : wf_image tile31) by exact tile31_wf.
  split; [split; [reflexivity|repeat constructor; cbn; lia]|].
  split; [vm_compute; reflexivity|].
  destruct (channels_stay_in_range (P := simple_pillow) tile31 tile31 Hwf)
    as (_ & _ & _ & [_ Hall] & _).
  cbv zeta in Hall.
  destruct (pixels (influence (P := simple_pillow)
                      (posterized_tile (P := simple_pillow) tile31) tile31) !! 0%nat)
    as [q|] eqn:Hq; [|vm_compute in Hq; discriminate Hq].
  exists q. split; [reflexivity|].
  rewrite Forall_forall in Hall. apply (Hall q). eapply list_elem_of_lookup_2, Hq.
Defined.

(** ** [apply_skin] on files *)

Section ApplySkin.
Context {P : Pillow} {E : Environment}.

(** What [Image.open(path).convert("RGB")] gives on the files [fs]. *)
Definition read_image (path : string) (fs : gmap string bytes) : result image :=
  match unreadable path with
  | Some e => Err e
  | None =>
      match fs !! path with
      | None => Err (FileNotFoundError path)
      | Some b =>
          match decode_RGB b with
          | None => Err (decode_error path b)
          | Some im => Ok im
          end
      end
  end.

Lemma Image_open_RGB_run path w : Image_open_RGB path w = (read_image path (files w), w).
Proof.
  unfold Image_open_RGB, read_image. destruct (unreadable path); [reflexivity|].
  destruct (files w !! path) as [b|]; [|reflexivity]. now destruct (decode_RGB b).
Qed.

Lemma read_image_decodes path fs b im :
  unreadable path = None -> fs !! path = Some b -> decode_RGB b = Some im ->
  read_image path fs = Ok im.
Proof. intros Hu Hb Hd. unfold read_image. now rewrite Hu, Hb, Hd. Qed.

(** What one call does, case by case. *)
Lemma apply_skin_run tile_path vibe_path output_path w :
  apply_skin tile_path vibe_path output_path w =
  match read_image tile_path (files w) with
  | Err e => (Err e, w)
  | Ok tile_img =>
    match read_image vibe_path (files w) with
    | Err e => (Err e, w)
    | Ok vibe_img =>
      match makedirs_parent output_path with
      | Some e => (Err e, w)
      | None =>
        match save_error output_path with
        | Some e => (Err e, w)
        | None =>
            (Ok tt, {| files := <[output_path := encode_PNG (skin tile_img vibe_img)]> (files w);
                       stdout := stdout w ++ [Saved_skinned_tile output_path] |})
        end
      end
    end
  end.
Proof.
  unfold apply_skin. unfold mbind at 1, Py_bind. rewrite Image_open_RGB_run.
  destruct (read_image tile_path (files w)) as [tile_img|e]; [|reflexivity].
  unfold mbind at 1, Py_bind. rewrite Image_open_RGB_run.
  destruct (read_image vibe_path (files w)) as [vibe_img|e]; [|reflexivity].
  unfold os_makedirs_parent, Image_save_PNG, write, print, mbind, Py_bind, mret, Py_ret, raise.
  destruct (makedirs_parent output_path); [reflexivity|].
  destruct (save_error output_path); reflexivity.
Qed.

(** C7: when both files can be read and decode, the output directory can be
    made and the output file written, the call returns, and the file it
    wrote decodes to an image of the width and the height of the tile,
    whatever the size of the vibe image. *)
Theorem apply_skin_keeps_tile_size tile_path vibe_path output_path w
    tile_bytes vibe_bytes (tile_img vibe_img : image) :
  files w !! tile_path = Some tile_bytes -> decode_RGB tile_bytes = Some tile_img ->
  files w !! vibe_path = Some vibe_bytes -> decode_RGB vibe_bytes = Some vibe_img ->
  makedirs_parent output_path = None ->
  unreadable tile_path = None -> unreadable vibe_path = None ->
  save_error output_path = None ->
  size (skin tile_img vibe_img) = size tile_img
  /\ exists w' out_bytes out_img,
       apply_skin tile_path vibe_path output_path w = (Ok tt, w')
       /\ files w' !! output_path = Some out_bytes
       /\ decode_RGB out_bytes = Some out_img
       /\ width out_img = width tile_img /\ height out_img = height tile_img
       /\ length (pixels out_img) = (width tile_img * height tile_img)%nat.
Proof.
  intros Ht Hdt Hv Hdv Hmk Hrt Hrv Hsv. split; [apply skin_size|].
  pose proof (skin_wf tile_img vibe_img (decode_wf _ _ Hdt)) as Hwf.
  pose proof (skin_size tile_img vibe_img) as Hsz.
  assert (Hw : width (skin tile_img vibe_img) = width tile_img) by exact (f_equal fst Hsz).
  assert (Hh : height (skin tile_img vibe_img) = height tile_img) by exact (f_equal snd Hsz).
  eexists _, (encode_PNG (skin tile_img vibe_img)), (skin tile_img vibe_img).
  rewrite apply_skin_run.
  rewrite (read_image_decodes _ _ _ _ Hrt Ht Hdt), (read_image_decodes _ _ _ _ Hrv Hv Hdv).
  rewrite Hmk, Hsv.
  split; [reflexivity|]. cbn [files]. rewrite lookup_insert_eq.
  split; [reflexivity|]. split; [now apply decode_encode|].
  split; [exact Hw|]. split; [exact Hh|].
  destruct Hwf as [Hrect _]. unfold rectangular in Hrect. now rewrite Hrect, Hw, Hh.
Qed.

Lemma read_image_agree path fs1 fs2 :
  fs1 !! path = fs2 !! path -> read_image path fs1 = read_image path fs2.
Proof. intros H. unfold read_image. now rewrite H. Qed.

(** C5: the call is a function of the contents of its two input files.  On
    two worlds that agree on them it returns or raises alike and writes the
    same bytes; run again on unchanged inputs it writes what it wrote. *)
Theorem apply_skin_deterministic tile_path vibe_path output_path (w1 w2 : World) :
  files w1 !! tile_path = files w2 !! tile_path ->
  files w1 !! vibe_path = files w2 !! vibe_path ->
  (apply_skin tile_path vibe_path output_path w1).1
  = (apply_skin tile_path vibe_path output_path w2).1
  /\ (forall w1' w2',
        apply_skin tile_path vibe_path output_path w1 = (Ok tt, w1') ->
        apply_skin tile_path vibe_path output_path w2 = (Ok tt, w2') ->
        is_Some (files w1' !! output_path)
        /\ files w1' !! output_path = files w2' !! output_path)
  /\ (output_path <> tile_path -> output_path <> vibe_path ->
      forall w1', apply_skin tile_path vibe_path output_path w1 = (Ok tt, w1') ->
      exists w1'', apply_skin tile_path vibe_path output_path w1' = (Ok tt, w1'')
                   /\ files w1'' = files w1').
Proof.
  intros Ht Hv. rewrite !apply_skin_run.
  rewrite <- (read_image_agree tile_path _ _ Ht), <- (read_image_agree vibe_path _ _ Hv).
  destruct (read_image tile_path (files w1)) as [tile_img|e] eqn:Et;
    [|repeat split; intros; congruence].
  destruct (read_image vibe_path (files w1)) as [vibe_img|e] eqn:Ev;
    [|repeat split; intros; congruence].
  destruct (makedirs_parent output_path) eqn:Emk; [repeat split; intros; congruence|].
  destruct (save_error output_path) eqn:Esv; [repeat split; intros; congruence|].
  split; [reflexivity|]. split.
  - intros w1' w2' [= <-] [= <-]. cbn [files]. rewrite !lookup_insert_eq. eauto.
  - intros Hot Hov w1' [= <-]. eexists. rewrite apply_skin_run. cbn [files].
    rewrite (read_image_agree tile_path _ (files w1)), Et
      by (now rewrite lookup_insert_ne).
    rewrite (read_image_agree vibe_path _ (files w1)), Ev
      by (now rewrite lookup_insert_ne).
    rewrite Emk, Esv. split; [reflexivity|]. cbn [files]. apply insert_insert_eq.
Qed.

End ApplySkin.

Lemma apply_skin_keeps_tile_size_witness :
  exists w' out_bytes out_img,
    apply_skin (P := simple_pillow) (E := offline) "tile.png" "vibe.png" "out.png" sample_world
    = (Ok tt, w')
    /\ files w' !! "out.png" = Some out_bytes
    /\ decode_RGB (Pillow := simple_pillow) out_bytes = Some out_img
    /\ width out_img = 2%nat /\ height out_img = 2%nat
    /\ length (pixels out_img) = 4%nat.
Proof.
  exact (proj2 (apply_skin_keeps_tile_size (P := simple_pillow) (E := offline)
                  "tile.png" "vibe.png" "out.png" sample_world
                  (SimplePillow.encode tile31) (SimplePillow.encode vibe16) tile31 vibe16
                  eq_refl eq_refl eq_refl eq_refl eq_refl eq_refl eq_refl eq_refl)).
Defined.

Lemma apply_skin_deterministic_witness :
  (apply_skin (P := simple_pillow) (E := offline) "tile.png" "vibe.png" "out.png" sample_world).1
  = (apply_skin (P := simple_pillow) (E := offline) "tile.png" "vibe.png" "out.png"
       {| files := files sample_world; stdout := [Tile_generation_complete] |}).1.
Proof.
  exact (proj1 (apply_skin_deterministic (P := simple_pillow) (E := offline)
                  "tile.png" "vibe.png" "out.png" sample_world
                  {| files := files sample_world; stdout := [Tile_generation_complete] |}
                  eq_refl eq_refl)).
Defined.
(** ** Loops *)

Lemma for_each_app {A} (xs ys : list A) (body : A -> Py unit) w :
  for_each (xs ++ ys) body w = (for_each xs body;; for_each ys body) w.
Proof.
  revert w. induction xs as [|x xs IH]; intros w; [reflexivity|].
  cbn [app for_each]. unfold mbind, Py_bind in *.
  destruct (body x w) as [[[]|e] w']; [|reflexivity]. apply IH.
Qed.

Lemma for_each_ext {A} (xs : list A) (body1 body2 : A -> Py unit) w :
  (forall x w, body1 x w = body2 x w) -> for_each xs body1 w = for_each xs body2 w.
Proof.
  intros Hb. revert w. induction xs as [|x xs IH]; intros w; [reflexivity|].
  cbn [for_each]. unfold mbind, Py_bind. rewrite Hb.
  destruct (body2 x w) as [[[]|e] w']; [|reflexivity]. apply IH.
Qed.

Lemma for_each_singleton {A} (x : A) (body : A -> Py unit) w :
  for_each [x] body w = body x w.
Proof.
  cbn [for_each]. unfold mbind, Py_bind, mret, Py_ret.
  now destruct (body x w) as [[[]|e] w'].
Qed.

(** A loop nest visits the concatenation of what its inner loops visit. *)
Lemma for_each_nest {A B} (xs : list A) (f : A -> list B) (body : B -> Py unit) w :
  for_each (xs ≫= f) body w = for_each xs (fun x => for_each (f x) body) w.
Proof.
  revert w. induction xs as [|x xs IH]; intros w; [reflexivity|].
  change ((x :: xs) ≫= f) with (f x ++ (xs ≫= f)). rewrite for_each_app.
  cbn [for_each]. unfold mbind at 1 3, Py_bind.
  destruct (for_each (f x) body w) as [[[]|e] w']; [|reflexivity]. apply IH.
Qed.

Lemma length_bind_const {A B} (xs : list A) (f : A -> list B) n :
  (forall x, length (f x) = n) -> length (xs ≫= f) = (length xs * n)%nat.
Proof.
  intros Hf. induction xs as [|x xs IH]; [reflexivity|].
  change ((x :: xs) ≫= f) with (f x ++ (xs ≫= f)). rewrite length_app, Hf, IH. cbn. lia.
Qed.

Lemma range_length lo hi : length (range lo hi) = Z.to_nat (hi - lo).
Proof. apply length_seqZ. Qed.

Lemma elem_of_range lo hi k : k ∈ range lo hi <-> lo <= k < hi.
Proof. unfold range. rewrite elem_of_seqZ. lia. Qed.

Lemma elem_of_tiles_around cx cy padding x y :
  (x, y) ∈ tiles_around cx cy padding
  <-> exists dx dy, - padding <= dx <= padding /\ - padding <= dy <= padding
                    /\ x = cx + dx /\ y = cy + dy.
Proof.
  unfold tiles_around. rewrite list_elem_of_bind. split.
  - intros (dx & Hin & Hdx). apply list_elem_of_bind in Hin as (dy & Hin & Hdy).
    apply list_elem_of_singleton in Hin as [= -> ->].
    apply elem_of_range in Hdx, Hdy. exists dx, dy. lia.
  - intros (dx & dy & Hdx & Hdy & -> & ->). exists dx. split.
    + apply list_elem_of_bind. exists dy. split; [apply list_elem_of_singleton; reflexivity|].
      apply elem_of_range. lia.
    + apply elem_of_range. lia.
Qed.

Lemma tiles_around_NoDup cx cy padding : NoDup (tiles_around cx cy padding).
Proof.
  unfold tiles_around. apply NoDup_bind.
  - intros dx1 dx2 [x y] _ _ H1 H2.
    apply list_elem_of_bind in H1 as (dy1 & H1 & _), H2 as (dy2 & H2 & _).
    apply list_elem_of_singleton in H1, H2. simplify_eq. lia.
  - intros dx _. apply NoDup_bind.
    + intros dy1 dy2 [x y] _ _ H1 H2. apply list_elem_of_singleton in H1, H2.
      simplify_eq. lia.
    + intros dy _. apply NoDup_singleton.
    + apply NoDup_seqZ.
  - apply NoDup_seqZ.
Qed.

Lemma tiles_around_length cx cy padding :
  0 <= padding -> length (tiles_around cx cy padding) = Z.to_nat ((2 * padding + 1) ^ 2).
Proof.
  intros Hp. unfold tiles_around.
  rewrite (length_bind_const _ _ (Z.to_nat (2 * padding + 1))).
  - rewrite range_length. replace (padding + 1 - - padding) with (2 * padding + 1) by lia.
    rewrite <- Z2Nat.inj_mul by lia. f_equal. lia.
  - intros dx. rewrite (length_bind_const _ _ 1%nat) by reflexivity.
    rewrite range_length. replace (padding + 1 - - padding) with (2 * padding + 1) by lia. lia.
Qed.

Lemma nested_loops_visit_tiles_around cx cy padding (body : Z -> Z -> Py unit) w :
  for_each (range (- padding) (padding + 1)) (fun dx =>
    for_each (range (- padding) (padding + 1)) (fun dy =>
      body (cx + dx) (cy + dy))) w
  = for_each (tiles_around cx cy padding) (fun t => body t.1 t.2) w.
Proof.
  unfold tiles_around. rewrite for_each_nest.
  apply for_each_ext. intros dx w'. rewrite for_each_nest.
  apply for_each_ext. intros dy w''. now rewrite for_each_singleton.
Qed.

(** ** Paths *)

Lemma string_app_nil (s : string) : "" +:+ s = s.
Proof. reflexivity. Qed.

Lemma string_app_cons (a : ascii) (s t : string) : String a s +:+ t = String a (s +:+ t).
Proof. reflexivity. Qed.

Lemma string_app_assoc (a b c : string) : (a +:+ b) +:+ c = a +:+ (b +:+ c).
Proof.
  induction a as [|x a IH]; [reflexivity|]. rewrite !string_app_cons. now rewrite IH.
Qed.

(** The character [c] occurs in the string. *)
Fixpoint occurs (c : ascii) (s : string) : Prop :=
  match s with
  | EmptyString => False
  | String a s' => a = c \/ occurs c s'
  end.

(** Two strings without [c], each followed by [c], end at the same place. *)
Lemma split_at_separator c s1 s2 r1 r2 :
  ~ occurs c s1 -> ~ occurs c s2 ->
  s1 +:+ String c r1 = s2 +:+ String c r2 -> s1 = s2 /\ r1 = r2.
Proof.
  revert s2. induction s1 as [|a s1 IH]; intros [|b s2] H1 H2 Heq;
    rewrite ?string_app_nil, ?string_app_cons in Heq; cbn in *.
  - now injection Heq.
  - injection Heq as <- _. tauto.
  - injection Heq as -> _. tauto.
  - injection Heq as -> Heq. destruct (IH s2) as [-> ->]; auto.
Qed.

Lemma pretty_N_char_digit d : pretty_N_char d <> "/"%char /\ pretty_N_char d <> "."%char.
Proof. unfold pretty_N_char. repeat case_match; split; discriminate. Qed.

Lemma pretty_N_go_occurs c x s :
  (forall d, pretty_N_char d <> c) -> ~ occurs c s -> ~ occurs c (pretty_N_go x s).
Proof.
  intros Hc. revert s. induction (N.lt_wf_0 x) as [x _ IH]; intros s Hs.
  assert (x = 0 \/ 0 < x)%N as [->|Hx] by lia.
  - now rewrite pretty_N_go_0.
  - rewrite pretty_N_go_step by done. apply IH.
    + now apply N.div_lt.
    + cbn. intros [Hd|Hd]; [now apply (Hc (x `mod` 10)%N)|tauto].
Qed.

Lemma str_occurs c n :
  (forall d, pretty_N_char d <> c) -> c <> "0"%char -> c <> "-"%char -> ~ occurs c (str n).
Proof.
  intros Hc H0 Hm.
  assert (HN : forall p, ~ occurs c (pretty (Npos p))).
  { intros p. unfold pretty, pretty_N. case_decide; [done|].
    apply pretty_N_go_occurs; [exact Hc|]. cbn. tauto. }
  unfold str, pretty, pretty_Z. destruct n as [|p|p].
  - cbn. intros [?|[]]. congruence.
  - apply HN.
  - cbn. intros [?|?]; [congruence|]. now apply (HN p).
Qed.

Lemma str_no_slash n : ~ occurs "/" (str n).
Proof. apply str_occurs; try discriminate. intros d. apply pretty_N_char_digit. Qed.

Lemma str_no_dot n : ~ occurs "." (str n).
Proof. apply str_occurs; try discriminate. intros d. apply pretty_N_char_digit. Qed.

Lemma str_inj n m : str n = str m -> n = m.
Proof. apply pretty_Z_inj. Qed.

Lemma pretty_N_go_not_empty x s : s <> "" -> pretty_N_go x s <> "".
Proof.
  revert s. induction (N.lt_wf_0 x) as [x _ IH]; intros s Hs.
  assert (x = 0 \/ 0 < x)%N as [->|Hx] by lia.
  - now rewrite pretty_N_go_0.
  - rewrite pretty_N_go_step by done. apply IH; [now apply N.div_lt|discriminate].
Qed.

Lemma str_not_empty n : str n <> "".
Proof.
  assert (HN : forall p, pretty (Npos p) <> "").
  { intros p. unfold pretty, pretty_N. case_decide; [done|].
    rewrite pretty_N_go_step by lia. apply pretty_N_go_not_empty. discriminate. }
  unfold str, pretty, pretty_Z. destruct n as [|p|p]; [discriminate|apply HN|discriminate].
Qed.

(** A string without a slash, not empty and not a dot, is one component. *)
Lemma split_slash_one s : ~ occurs "/" s -> split_slash s = [s].
Proof.
  induction s as [|a s IH]; [reflexivity|]. cbn. intros H.
  destruct (Ascii.eqb_spec a "/") as [->|_]; [tauto|].
  rewrite IH by tauto. reflexivity.
Qed.

Lemma posix_parts_one s : ~ occurs "/" s -> s <> "" -> s <> "." -> posix_parts s = [s].
Proof.
  intros Hs He Hd. unfold posix_parts. rewrite split_slash_one by exact Hs.
  cbn. unfold is_part.
  destruct (String.eqb_spec s ""); [done|]. destruct (String.eqb_spec s "."); [done|].
  reflexivity.
Qed.

Lemma joinpath_relative p s :
  ~ occurs "/" s -> joinpath p s = {| root := root p; parts := parts p ++ posix_parts s |}.
Proof.
  intros Hs. unfold joinpath. destruct s as [|a s]; [reflexivity|].
  destruct (Ascii.eqb_spec a "/") as [->|Hne]; [cbn in Hs; tauto|].
  destruct a as [[] [] [] [] [] [] [] []]; try reflexivity. now destruct Hne.
Qed.

Lemma joinpath_str p n :
  joinpath p (str n) = {| root := root p; parts := parts p ++ [str n] |}.
Proof.
  rewrite joinpath_relative by apply str_no_slash. rewrite posix_parts_one; [reflexivity| | |].
  - apply str_no_slash.
  - apply str_not_empty.
  - intros H. apply (str_no_dot n). rewrite H. cbn. auto.
Qed.

Lemma occurs_app c s t : occurs c (s +:+ t) <-> occurs c s \/ occurs c t.
Proof.
  induction s as [|a s IH]; rewrite ?string_app_nil, ?string_app_cons; cbn; tauto.
Qed.

Lemma joinpath_png p n :
  joinpath p (str n +:+ ".png")
  = {| root := root p; parts := parts p ++ [str n +:+ ".png"] |}.
Proof.
  assert (Hs : ~ occurs "/" (str n +:+ ".png")).
  { rewrite occurs_app. intros [H|H]; [now apply (str_no_slash n)|].
    cbn in H. intuition discriminate. }
  rewrite joinpath_relative by exact Hs. rewrite posix_parts_one; [reflexivity|exact Hs| |].
  - pose proof (str_not_empty n). destruct (str n); [done|discriminate].
  - pose proof (str_not_empty n) as He. destruct (str n) as [|a [|b s]]; [done| |];
      rewrite !string_app_cons, ?string_app_nil; discriminate.
Qed.

(** The text of a directory up to and including the slash before the
    next component. *)
Definition dir_prefix (p : PurePath) : string :=
  root p +:+ fold_right (fun c s => c +:+ "/" +:+ s) "" (parts p).

Lemma join_slash_snoc ps c :
  join_slash (ps ++ [c]) = fold_right (fun c s => c +:+ "/" +:+ s) "" ps +:+ c.
Proof.
  induction ps as [|p ps IH]; [reflexivity|]. cbn [app fold_right].
  destruct ps as [|q ps]; [cbn; now rewrite !string_app_assoc|].
  change (join_slash (p :: (q :: ps) ++ [c])) with (p +:+ "/" +:+ join_slash ((q :: ps) ++ [c])).
  rewrite IH. now rewrite !string_app_assoc.
Qed.

Lemma path_str_snoc r ps c :
  c <> "" -> path_str {| root := r; parts := ps ++ [c] |}
             = dir_prefix {| root := r; parts := ps |} +:+ c.
Proof.
  intros Hc.
  assert (Hstr : path_str {| root := r; parts := ps ++ [c] |} = r +:+ join_slash (ps ++ [c])).
  { unfold path_str. cbn [root parts]. destruct r; [|reflexivity].
    destruct (ps ++ [c]) eqn:Hl; [now destruct ps|reflexivity]. }
  rewrite Hstr, join_slash_snoc. unfold dir_prefix. cbn [root parts].
  now rewrite string_app_assoc.
Qed.

Lemma dir_prefix_snoc r ps c :
  dir_prefix {| root := r; parts := ps ++ [c] |}
  = dir_prefix {| root := r; parts := ps |} +:+ c +:+ "/".
Proof.
  unfold dir_prefix. cbn [root parts]. rewrite fold_right_app. cbn [fold_right].
  rewrite string_app_assoc. f_equal.
  induction ps as [|p ps IH]; [reflexivity|]. cbn [fold_right].
  rewrite IH. now rewrite !string_app_assoc.
Qed.

(** The path of a tile: the directory, then the zoom level, the column and
    the row. *)
Lemma tile_path_flat dir zoom x y :
  tile_path dir zoom x y
  = dir_prefix dir
    +:+ (str zoom +:+ String "/" (str x +:+ String "/" (str y +:+ String "." "png"))).
Proof.
  unfold tile_path. rewrite !joinpath_str, joinpath_png. cbn [root parts].
  destruct dir as [r ps]. cbn [root parts].
  rewrite path_str_snoc, !dir_prefix_snoc.
  - now rewrite !string_app_assoc.
  - pose proof (str_not_empty y). destruct (str y); [done|discriminate].
Qed.

(** Distinct tiles are cached in distinct files. *)
Lemma tile_path_inj dir z1 x1 y1 z2 x2 y2 :
  tile_path dir z1 x1 y1 = tile_path dir z2 x2 y2 -> z1 = z2 /\ x1 = x2 /\ y1 = y2.
Proof.
  rewrite !tile_path_flat. intros Heq. apply String.app_inj in Heq.
  apply split_at_separator in Heq as [Hz Heq]; try apply str_no_slash.
  apply split_at_separator in Heq as [Hx Heq]; try apply str_no_slash.
  apply split_at_separator in Heq as [Hy _]; try apply str_no_dot.
  auto using str_inj.
Qed.

Lemma dir_prefix_raw assets_dir :
  dir_prefix (raw_dir assets_dir) = dir_prefix (Path assets_dir) +:+ "skins/_raw_tiles/".
Proof.
  unfold raw_dir. destruct (Path assets_dir) as [r ps].
  change (joinpath (joinpath {| root := r; parts := ps |} "skins") "_raw_tiles")
    with {| root := r; parts := (ps ++ ["skins"]) ++ ["_raw_tiles"] |}.
  rewrite !dir_prefix_snoc. now rewrite !string_app_assoc.
Qed.

Lemma dir_prefix_cartoon assets_dir :
  dir_prefix (cartoon_dir assets_dir) = dir_prefix (Path assets_dir) +:+ "skins/cartoon/".
Proof.
  unfold cartoon_dir. destruct (Path assets_dir) as [r ps].
  change (joinpath (joinpath {| root := r; parts := ps |} "skins") "cartoon")
    with {| root := r; parts := (ps ++ ["skins"]) ++ ["cartoon"] |}.
  rewrite !dir_prefix_snoc. now rewrite !string_app_assoc.
Qed.

(** The cache of raw tiles and the skinned tiles are different files. *)
Lemma raw_is_not_cartoon assets_dir z1 x1 y1 z2 x2 y2 :
  tile_path (raw_dir assets_dir) z1 x1 y1 <> tile_path (cartoon_dir assets_dir) z2 x2 y2.
Proof.
  rewrite !tile_path_flat, dir_prefix_raw, dir_prefix_cartoon.
  rewrite !string_app_assoc. intros Heq. apply String.app_inj in Heq.
  rewrite !string_app_cons in Heq. discriminate Heq.
Qed.

(** The paths of the tiles, for an assets directory written in any of its
    forms, are those of its normal form. *)
Lemma tile_path_assets z x y :
  tile_path (raw_dir "assets") z x y
  = "assets/skins/_raw_tiles/" +:+ str z +:+ "/" +:+ str x +:+ "/" +:+ str y +:+ ".png"
  /\ tile_path (cartoon_dir "assets") z x y
     = "assets/skins/cartoon/" +:+ str z +:+ "/" +:+ str x +:+ "/" +:+ str y +:+ ".png"
  /\ tile_path (raw_dir "assets/") z x y = tile_path (raw_dir "assets") z x y
  /\ tile_path (cartoon_dir "./assets//") z x y = tile_path (cartoon_dir "assets") z x y.
Proof.
  rewrite !tile_path_flat, !dir_prefix_raw, !dir_prefix_cartoon.
  repeat split; try reflexivity; now rewrite !string_app_assoc.
Qed.

(** ** [download_osm_tile] *)

Section Download.
Context {E : Environment}.

(** One call, once the directory is in place. *)
Lemma download_run z x y path w :
  makedirs_parent path = None ->
  download_osm_tile z x y path w
  = (Ok (bool_decide (download_failure z x y path = None)),
     {| files := match download_writes z x y path with
                 | Some data => <[path := data]> (files w)
                 | None => files w
                 end;
        stdout := stdout w ++ [match download_failure z x y path with
                               | Some e => Failed_to_download_tile z x y e
                               | None => Downloaded_tile z x y path
                               end] |}).
Proof.
  intros Hmk. unfold download_osm_tile, os_makedirs_parent, download_failure, download_writes.
  rewrite Hmk.
  unfold try_except, open_wb, write, print, raise, mbind, Py_bind, mret, Py_ret.
  destruct (urlopen (osm_url z x y)) as [e|e|data];
    destruct (open_wb_error path) as [e'|]; cbn; try reflexivity.
  now rewrite insert_insert_eq.
Qed.

End Download.

(** ** A batch, tile by tile *)

Section Batch.
Context {P : Pillow} {L : Libm} {E : Environment}.
Variables assets_dir vibe_path : string.
Variable vibe_bytes : bytes.
Variable vibe_img : image.
Variable fs : gmap string bytes.

Abbreviation raw z x y := (tile_path (raw_dir assets_dir) z x y).
Abbreviation cartoon z x y := (tile_path (cartoon_dir assets_dir) z x y).

Hypothesis makedirs_ok : forall path, makedirs_parent path = None.
Hypothesis readable : forall path, unreadable path = None.
Hypothesis sources_ok : forall z x y b,
  tile_source assets_dir fs z x y = Some b ->
  is_Some (decode_RGB b) /\ save_error (cartoon z x y) = None
  /\ fs !! vibe_path = Some vibe_bytes /\ decode_RGB vibe_bytes = Some vibe_img
  /\ forall z' x' y', vibe_path <> raw z' x' y' /\ vibe_path <> cartoon z' x' y'.

(** The files after the batch has fetched the tile, if it had to. *)
Definition fetched (zoom x y : Z) (files_w : gmap string bytes) : gmap string bytes :=
  match fs !! raw zoom x y, download_writes zoom x y (raw zoom x y) with
  | None, Some data => <[raw zoom x y := data]> files_w
  | _, _ => files_w
  end.

(** The world after the batch has dealt with one tile. *)
Definition after_tile (zoom x y : Z) (w : World) : World := {|
  files := match tile_source assets_dir fs zoom x y ≫= decode_RGB with
           | Some img =>
               <[cartoon zoom x y := encode_PNG (skin img vibe_img)]>
                 (fetched zoom x y (files w))
           | None => fetched zoom x y (files w)
           end;
  stdout := stdout w ++ tile_log assets_dir fs zoom (x, y)
|}.

(** The state of a batch that has dealt with the tiles of [V], started on
    the files [fs]. *)
Record progress (V : list (Z * Z * Z)) (w : World) : Prop := {
  other_files : forall p,
    (forall z x y, (z, x, y) ∈ V -> p <> raw z x y /\ p <> cartoon z x y) ->
    files w !! p = fs !! p;
  cached : forall z x y, (z, x, y) ∈ V ->
    files w !! raw z x y = raw_after assets_dir fs z x y;
  skinned : forall z x y, (z, x, y) ∈ V ->
    match tile_source assets_dir fs z x y with
    | Some b => exists img, decode_RGB b = Some img
                  /\ files w !! cartoon z x y = Some (encode_PNG (skin img vibe_img))
    | None => files w !! cartoon z x y = fs !! cartoon z x y
    end
}.

Lemma untouched V w z x y p :
  progress V w -> (z, x, y) ∉ V -> p = raw z x y \/ p = cartoon z x y ->
  files w !! p = fs !! p.
Proof.
  intros Hp Hnin Hpath. apply (other_files _ _ Hp). intros z' x' y' Hin.
  assert (Hne : (z', x', y') <> (z, x, y)).
  { intros Heq. apply Hnin. rewrite <- Heq. exact Hin. }
  destruct Hpath as [-> | ->]; split; intros Heq.
  - apply tile_path_inj in Heq as (-> & -> & ->). now apply Hne.
  - now apply raw_is_not_cartoon in Heq.
  - symmetry in Heq. now apply raw_is_not_cartoon in Heq.
  - apply tile_path_inj in Heq as (-> & -> & ->). now apply Hne.
Qed.

(** One tile. *)
Lemma generate_tile_run V zoom x y w :
  progress V w -> (zoom, x, y) ∉ V ->
  generate_tile assets_dir vibe_path zoom x y w = (Ok tt, after_tile zoom x y w).
Proof.
  intros Hp Hnin.
  assert (Hraw : files w !! raw zoom x y = fs !! raw zoom x y)
    by (apply (untouched V w zoom x y); auto).
  pose proof (sources_ok zoom x y) as Hsrc.
  unfold generate_tile, os_path_exists.
  unfold mbind at 1, Py_bind at 1. rewrite readable, Hraw.
  unfold after_tile, fetched, tile_log, tile_source in *. cbn [fst snd] in *.
  destruct (fs !! raw zoom x y) as [b|] eqn:Hb.
  - rewrite bool_decide_eq_true_2 by eauto. cbn [orb negb].
    unfold mbind, Py_bind, mret, Py_ret.
    destruct (Hsrc b eq_refl) as ([img Himg] & Hsave & Hv & Hdv & Hvp).
    rewrite apply_skin_run.
    rewrite (read_image_decodes _ _ b img (readable _) Hraw Himg).
    assert (Hvw : files w !! vibe_path = Some vibe_bytes).
    { rewrite <- Hv. apply (other_files _ _ Hp). intros z' x' y' _. apply Hvp. }
    rewrite (read_image_decodes _ _ vibe_bytes vibe_img (readable _) Hvw Hdv).
    rewrite makedirs_ok, Hsave. cbn [mbind option_bind]. now rewrite Himg.
  - rewrite !bool_decide_eq_false_2 by (intros [? ?]; discriminate). cbn [orb negb].
    unfold mbind at 1, Py_bind at 1. unfold mbind at 1, Py_bind at 1.
    rewrite download_run by apply makedirs_ok.
    destruct (download_failure zoom x y (raw zoom x y)) as [e|] eqn:Hf.
    + rewrite bool_decide_eq_false_2 by discriminate. cbn [negb mbind option_bind].
      reflexivity.
    + rewrite bool_decide_eq_true_2 by reflexivity. cbn [negb].
      unfold mret, Py_ret.
      destruct (download_writes zoom x y (raw zoom x y)) as [data|] eqn:Hw.
      2:{ unfold download_failure, download_writes in Hf, Hw.
          destruct (urlopen (osm_url zoom x y)); try discriminate Hf.
          destruct (open_wb_error (raw zoom x y)); discriminate. }
      destruct (Hsrc data eq_refl) as ([img Himg] & Hsave & Hv & Hdv & Hvp).
      destruct (Hvp zoom x y) as [Hvr _].
      rewrite apply_skin_run. cbn [files stdout].
      rewrite (read_image_decodes _ _ data img (readable _)
                 (lookup_insert_eq _ _ _) Himg).
      assert (Hvw : <[raw zoom x y := data]> (files w) !! vibe_path = Some vibe_bytes).
      { rewrite lookup_insert_ne by (intros Heq; now apply Hvr).
        rewrite <- Hv. apply (other_files _ _ Hp). intros z' x' y' _. apply Hvp. }
      rewrite (read_image_decodes _ _ vibe_bytes vibe_img (readable _) Hvw Hdv).
      rewrite makedirs_ok, Hsave. cbn [mbind option_bind]. rewrite Himg, <- app_assoc.
      reflexivity.
Qed.

Lemma after_tile_progress V w zoom x y :
  progress V w -> (zoom, x, y) ∉ V ->
  progress ((zoom, x, y) :: V) (after_tile zoom x y w).
Proof.
  intros Hp Hnin.
  assert (Hraw : files w !! raw zoom x y = fs !! raw zoom x y)
    by (apply (untouched V w zoom x y); auto).
  assert (Hcar : files w !! cartoon zoom x y = fs !! cartoon zoom x y)
    by (apply (untouched V w zoom x y); auto).
  assert (Hrc : raw zoom x y <> cartoon zoom x y) by apply raw_is_not_cartoon.
  assert (Hfetched : forall p, p <> raw zoom x y ->
            fetched zoom x y (files w) !! p = files w !! p).
  { intros p Hpr. unfold fetched. destruct (fs !! raw zoom x y); [reflexivity|].
    destruct (download_writes _ _ _ _); [now rewrite lookup_insert_ne|reflexivity]. }
  assert (Hfetched_raw : fetched zoom x y (files w) !! raw zoom x y
                         = raw_after assets_dir fs zoom x y).
  { unfold fetched, raw_after. destruct (fs !! raw zoom x y) as [b|] eqn:Hb.
    - now rewrite Hraw.
    - destruct (download_writes _ _ _ _);
        [now rewrite lookup_insert_eq|now rewrite Hraw]. }
  assert (Hfiles : forall p, p <> cartoon zoom x y ->
            files (after_tile zoom x y w) !! p = fetched zoom x y (files w) !! p).
  { intros p Hpc. unfold after_tile. cbn [files].
    destruct (_ ≫= _); [now rewrite lookup_insert_ne|reflexivity]. }
  split.
  - intros p Hpath. destruct (Hpath zoom x y) as [Hpr Hpc]; [now left|].
    rewrite Hfiles, Hfetched by assumption. apply (other_files _ _ Hp).
    intros z' x' y' Hin. apply Hpath. now right.
  - intros z' x' y' Hin. apply elem_of_cons in Hin as [[= -> -> ->]|Hin].
    + rewrite Hfiles by (intros Heq; now apply Hrc). exact Hfetched_raw.
    + rewrite Hfiles, Hfetched; [now apply (cached _ _ Hp)| |].
      * intros Heq. apply tile_path_inj in Heq as (-> & -> & ->). contradiction.
      * apply raw_is_not_cartoon.
  - intros z' x' y' Hin. apply elem_of_cons in Hin as [[= -> -> ->]|Hin].
    + unfold after_tile. cbn [files].
      destruct (tile_source assets_dir fs zoom x y) as [b|] eqn:Hsrc; cbn [mbind option_bind].
      * destruct (sources_ok _ _ _ _ Hsrc) as ([img Himg] & _). rewrite Himg.
        exists img. split; [reflexivity|]. apply lookup_insert_eq.
      * rewrite Hfetched by (intros Heq; symmetry in Heq; now apply Hrc). exact Hcar.
    + rewrite Hfiles, Hfetched; [now apply (skinned _ _ Hp)| |].
      * intros Heq. symmetry in Heq. now apply raw_is_not_cartoon in Heq.
      * intros Heq. apply tile_path_inj in Heq as (-> & -> & ->). contradiction.
Qed.

Lemma progress_start w : files w = fs -> progress [] w.
Proof.
  intros Hw. split.
  - intros p _. now rewrite Hw.
  - intros z x y Hin. inversion Hin.
  - intros z x y Hin. inversion Hin.
Qed.

Lemma progress_equiv V1 V2 w :
  (forall t, t ∈ V1 <-> t ∈ V2) -> progress V1 w -> progress V2 w.
Proof.
  intros HV [H1 H2 H3]. split.
  - intros p Hp. apply H1. intros z x y Hin. apply Hp, HV, Hin.
  - intros z x y Hin. apply H2, HV, Hin.
  - intros z x y Hin. apply H3, HV, Hin.
Qed.

Lemma tiles_run zoom ts : forall V w,
  progress V w -> NoDup ts -> (forall t, t ∈ ts -> (zoom, t.1, t.2) ∉ V) ->
  exists w',
    for_each ts (fun t => generate_tile assets_dir vibe_path zoom t.1 t.2) w = (Ok tt, w')
    /\ progress (map (fun t => (zoom, t.1, t.2)) ts ++ V) w'
    /\ stdout w' = stdout w ++ concat (map (tile_log assets_dir fs zoom) ts).
Proof.
  induction ts as [|[x y] ts IH]; intros V w Hp Hnd HV.
  - exists w. cbn. rewrite app_nil_r. auto.
  - apply NoDup_cons in Hnd as [Hnin Hnd].
    assert (HxV : (zoom, x, y) ∉ V) by (apply (HV (x, y)); now left).
    destruct (IH ((zoom, x, y) :: V) (after_tile zoom x y w))
      as (w' & Hrun & Hp' & Hout); auto using after_tile_progress.
    { intros [x' y'] Hin Hin'. cbn in Hin'. apply elem_of_cons in Hin' as [Heq|Hin'].
      - injection Heq as -> ->. contradiction.
      - apply (HV (x', y')); [now right|exact Hin']. }
    exists w'. cbn [for_each]. unfold mbind, Py_bind.
    rewrite (generate_tile_run V) by assumption.
    split; [exact Hrun|]. split.
    + eapply progress_equiv; [|exact Hp']. intros t. cbn.
      rewrite !elem_of_app, !elem_of_cons, elem_of_app. tauto.
    + rewrite Hout. cbn [after_tile stdout map concat]. now rewrite <- app_assoc.
Qed.

(** The loops of one zoom level are one pass over the grid. *)
Lemma generate_zoom_loops zoom padding cx cy w :
  lat_lon_to_tile center_lat center_lon zoom = Ok (cx, cy) ->
  generate_zoom assets_dir vibe_path zoom padding w
  = (print (Generating_zoom zoom cx cy);;
     for_each (tiles_around cx cy padding)
       (fun t => generate_tile assets_dir vibe_path zoom t.1 t.2)) w.
Proof.
  intros Hcen. unfold generate_zoom, lift. rewrite Hcen.
  unfold mbind, Py_bind, print. apply nested_loops_visit_tiles_around.
Qed.

Lemma generate_zoom_run zoom padding cx cy V w :
  lat_lon_to_tile center_lat center_lon zoom = Ok (cx, cy) ->
  progress V w -> (forall x y, (zoom, x, y) ∉ V) ->
  exists w',
    generate_zoom assets_dir vibe_path zoom padding w = (Ok tt, w')
    /\ progress (map (fun t => (zoom, t.1, t.2)) (tiles_around cx cy padding) ++ V) w'
    /\ stdout w' = stdout w ++ zoom_log assets_dir fs zoom cx cy padding.
Proof.
  intros Hcen Hp HV.
  destruct (tiles_run zoom (tiles_around cx cy padding) V
              {| files := files w; stdout := stdout w ++ [Generating_zoom zoom cx cy] |})
    as (w' & Hrun & Hp' & Hout); auto using tiles_around_NoDup.
  { destruct Hp as [H1 H2 H3]. split; assumption. }
  exists w'. rewrite (generate_zoom_loops _ _ cx cy) by exact Hcen.
  unfold print. unfold mbind at 1, Py_bind at 1.
  split; [exact Hrun|]. split; [exact Hp'|].
  rewrite Hout. cbn [stdout]. unfold zoom_log. now rewrite <- app_assoc.
Qed.

End Batch.

(** ** What a batch prints *)

Section Logs.
Context {E : Environment}.
Variable assets_dir : string.

Lemma tile_source_None fs zoom x y :
  tile_source assets_dir fs zoom x y = None ->
  fs !! tile_path (raw_dir assets_dir) zoom x y = None
  /\ exists e, download_failure zoom x y (tile_path (raw_dir assets_dir) zoom x y) = Some e.
Proof.
  unfold tile_source. destruct (fs !! _); [discriminate|]. intros H. split; [reflexivity|].
  destruct (download_failure _ _ _ _) as [e|] eqn:Hf; [eauto|].
  unfold download_failure, download_writes in *.
  destruct (urlopen _); try discriminate Hf. destruct (open_wb_error _); discriminate.
Qed.

Lemma tile_log_one_outcome fs zoom t :
  (length (List.filter is_saved (tile_log assets_dir fs zoom t))
   + length (List.filter is_failure (tile_log assets_dir fs zoom t)) = 1)%nat.
Proof.
  unfold tile_log. destruct (fs !! _); [reflexivity|].
  destruct (download_failure _ _ _ _); reflexivity.
Qed.

Lemma zoom_log_outcomes fs zoom cx cy padding :
  0 <= padding ->
  (length (List.filter is_saved (zoom_log assets_dir fs zoom cx cy padding))
   + length (List.filter is_failure (zoom_log assets_dir fs zoom cx cy padding))
   = Z.to_nat ((2 * padding + 1) ^ 2))%nat.
Proof.
  intros Hp. rewrite <- (tiles_around_length cx cy padding Hp).
  unfold zoom_log. cbn [List.filter is_saved is_failure].
  induction (tiles_around cx cy padding) as [|t ts IH]; [reflexivity|].
  cbn [map concat length]. rewrite !List.filter_app, !length_app.
  pose proof (tile_log_one_outcome fs zoom t). lia.
Qed.

Lemma tile_log_in_zoom_log fs zoom cx cy padding x y l :
  (x, y) ∈ tiles_around cx cy padding -> l ∈ tile_log assets_dir fs zoom (x, y) ->
  l ∈ zoom_log assets_dir fs zoom cx cy padding.
Proof.
  intros Ht Hl. unfold zoom_log. apply elem_of_cons. right.
  apply list_elem_of_In, in_concat. exists (tile_log assets_dir fs zoom (x, y)).
  split; [|now apply list_elem_of_In]. apply in_map. now apply list_elem_of_In.
Qed.

(** When every fetch fails, a zoom level prints one failure per tile, in
    the order of the grid, and no other outcome. *)
Lemma zoom_log_all_fail fs zoom cx cy padding :
  (forall x y, tile_source assets_dir fs zoom x y = None) ->
  omap failed_tile (zoom_log assets_dir fs zoom cx cy padding) = tiles_around cx cy padding
  /\ List.filter is_saved (zoom_log assets_dir fs zoom cx cy padding) = []
  /\ length (List.filter is_failure (zoom_log assets_dir fs zoom cx cy padding))
     = length (tiles_around cx cy padding).
Proof.
  intros Hnone. unfold zoom_log. cbn [omap list_omap failed_tile List.filter is_saved is_failure].
  induction (tiles_around cx cy padding) as [|[x y] ts (IH1 & IH2 & IH3)]; [now repeat split|].
  cbn [map concat length]. rewrite omap_app, !List.filter_app, length_app, IH1, IH2, IH3.
  destruct (tile_source_None fs zoom x y (Hnone x y)) as [Hraw [e He]].
  unfold tile_log. cbn [fst snd]. rewrite Hraw, He. now repeat split.
Qed.

End Logs.

(** One run of the batch, from the runs of its three zoom levels. *)
Lemma batch_run {P : Pillow} {L : Libm} {E : Environment}
    (assets_dir vibe_path : string) (vibe_bytes : bytes) (vibe_img : image)
    (w : World) (c13 c14 c15 : Z * Z) :
  (forall path, makedirs_parent path = None) ->
  (forall path, unreadable path = None) ->
  (forall z x y b,
     tile_source assets_dir (files w) z x y = Some b ->
     is_Some (decode_RGB b) /\ save_error (tile_path (cartoon_dir assets_dir) z x y) = None
     /\ files w !! vibe_path = Some vibe_bytes /\ decode_RGB vibe_bytes = Some vibe_img
     /\ forall z' x' y', vibe_path <> tile_path (raw_dir assets_dir) z' x' y'
                         /\ vibe_path <> tile_path (cartoon_dir assets_dir) z' x' y') ->
  lat_lon_to_tile center_lat center_lon 13 = Ok c13 ->
  lat_lon_to_tile center_lat center_lon 14 = Ok c14 ->
  lat_lon_to_tile center_lat center_lon 15 = Ok c15 ->
  exists w',
    generate_sf_tiles assets_dir vibe_path w = (Ok tt, w')
    /\ stdout w' = stdout w
                   ++ zoom_log assets_dir (files w) 13 c13.1 c13.2 1
                   ++ zoom_log assets_dir (files w) 14 c14.1 c14.2 1
                   ++ zoom_log assets_dir (files w) 15 c15.1 c15.2 2
                   ++ [Tile_generation_complete]
    /\ (forall p,
          (forall zoom padding c x y,
             (zoom, padding, c) ∈ [(13, 1, c13); (14, 1, c14); (15, 2, c15)] ->
             (x, y) ∈ tiles_around c.1 c.2 padding ->
             p <> tile_path (raw_dir assets_dir) zoom x y
             /\ p <> tile_path (cartoon_dir assets_dir) zoom x y) ->
          files w' !! p = files w !! p)
    /\ (forall zoom padding c x y,
          (zoom, padding, c) ∈ [(13, 1, c13); (14, 1, c14); (15, 2, c15)] ->
          (x, y) ∈ tiles_around c.1 c.2 padding ->
          files w' !! tile_path (raw_dir assets_dir) zoom x y
          = raw_after assets_dir (files w) zoom x y
          /\ match tile_source assets_dir (files w) zoom x y with
             | Some b =>
                 exists img, decode_RGB b = Some img
                   /\ files w' !! tile_path (cartoon_dir assets_dir) zoom x y
                      = Some (encode_PNG (skin img vibe_img))
             | None =>
                 files w' !! tile_path (cartoon_dir assets_dir) zoom x y
                 = files w !! tile_path (cartoon_dir assets_dir) zoom x y
             end).
Proof.
  intros Hmk Hrd Hsrc H13 H14 H15.
  destruct c13 as [cx13 cy13], c14 as [cx14 cy14], c15 as [cx15 cy15].
  pose proof (generate_zoom_run assets_dir vibe_path vibe_bytes vibe_img (files w)
                Hmk Hrd Hsrc) as Hzoom.
  destruct (Hzoom 13 1 cx13 cy13 [] w H13) as (w1 & Hr1 & Hp1 & Ho1).
  { now apply progress_start. }
  { intros x y Hin. inversion Hin. }
  destruct (Hzoom 14 1 cx14 cy14 _ w1 H14 Hp1) as (w2 & Hr2 & Hp2 & Ho2).
  { intros x y Hin. rewrite app_nil_r in Hin.
    apply list_elem_of_fmap in Hin as (t & Heq & _). discriminate. }
  destruct (Hzoom 15 2 cx15 cy15 _ w2 H15 Hp2) as (w3 & Hr3 & Hp3 & Ho3).
  { intros x y Hin. rewrite app_nil_r in Hin.
    apply elem_of_app in Hin as [Hin|Hin];
      apply list_elem_of_fmap in Hin as (t & Heq & _); discriminate. }
  assert (HV : forall zoom padding c x y,
             (zoom, padding, c) ∈ [(13, 1, (cx13, cy13)); (14, 1, (cx14, cy14));
                                   (15, 2, (cx15, cy15))] ->
             (x, y) ∈ tiles_around c.1 c.2 padding ->
             (zoom, x, y)
             ∈ map (fun t : Z * Z => (15, t.1, t.2)) (tiles_around cx15 cy15 2)
               ++ map (fun t : Z * Z => (14, t.1, t.2)) (tiles_around cx14 cy14 1)
               ++ map (fun t : Z * Z => (13, t.1, t.2)) (tiles_around cx13 cy13 1) ++ []).
  { intros zoom padding c x y Hcfg Hin. rewrite !elem_of_app.
    apply elem_of_cons in Hcfg as [[= -> -> ->]|Hcfg];
      [right; right; left; apply list_elem_of_fmap; exists (x, y); auto|].
    apply elem_of_cons in Hcfg as [[= -> -> ->]|Hcfg];
      [right; left; apply list_elem_of_fmap; exists (x, y); auto|].
    apply elem_of_cons in Hcfg as [[= -> -> ->]|Hcfg];
      [left; apply list_elem_of_fmap; exists (x, y); auto|].
    inversion Hcfg. }
  destruct Hp3 as [Hother Hcached Hskinned].
  eexists. split; [|split; [|split]].
  - unfold generate_sf_tiles, zoom_configs. cbn [for_each].
    unfold mbind, Py_bind, mret, Py_ret, print. now rewrite Hr1, Hr2, Hr3.
  - cbn [stdout]. rewrite Ho3, Ho2, Ho1. cbn [fst snd]. now rewrite <- !app_assoc.
  - intros p Hp. cbn [files]. apply Hother.
    intros z x y Hin. rewrite !elem_of_app in Hin.
    destruct Hin as [Hin|[Hin|[Hin|Hin]]]; [| | |inversion Hin];
      apply list_elem_of_fmap in Hin as ([x' y'] & [= -> -> ->] & Hin).
    + apply (Hp 15 2 (cx15, cy15) x' y'); [rewrite !elem_of_cons; auto|exact Hin].
    + apply (Hp 14 1 (cx14, cy14) x' y'); [rewrite !elem_of_cons; auto|exact Hin].
    + apply (Hp 13 1 (cx13, cy13) x' y'); [rewrite !elem_of_cons; auto|exact Hin].
  - intros zoom padding c x y Hcfg Hin. cbn [files].
    pose proof (HV zoom padding c x y Hcfg Hin) as Hmem.
    split; [exact (Hcached zoom x y Hmem)|exact (Hskinned zoom x y Hmem)].
Qed.

(** ** The grid of a zoom level *)

(** No tile can be obtained: an assignment that meets the conditions of
    every tile that can. *)
Lemma no_source_ok {P : Pillow} {E : Environment} assets_dir vibe_path
    (vibe_bytes : bytes) (vibe_img : image) (fs : gmap string bytes) :
  (forall z x y, tile_source assets_dir fs z x y = None) ->
  forall z x y b,
    tile_source assets_dir fs z x y = Some b ->
    is_Some (decode_RGB b) /\ save_error (tile_path (cartoon_dir assets_dir) z x y) = None
    /\ fs !! vibe_path = Some vibe_bytes /\ decode_RGB vibe_bytes = Some vibe_img
    /\ forall z' x' y', vibe_path <> tile_path (raw_dir assets_dir) z' x' y'
                        /\ vibe_path <> tile_path (cartoon_dir assets_dir) z' x' y'.
Proof. intros Hnone z x y b Hb. rewrite Hnone in Hb. discriminate Hb. Qed.

(** C8: around every centre [(cx, cy)], with a padding [p >= 0], the grid
    has [(2p+1)^2] tiles, no tile twice, exactly the pairs
    [(cx + dx, cy + dy)] with [dx] and [dy] from [-p] to [p].  The two loops
    of a zoom level whose centre tile is [(cx, cy)] are one pass over this
    grid: one call of the loop body per tile.  Where no tile is cached and
    every fetch fails, the tiles that the zoom level reports as failed are
    the tiles of the grid, each once. *)
Theorem tiles_around_complete {P : Pillow} {L : Libm} {E : Environment}
    (assets_dir vibe_path : string) (zoom cx cy padding : Z) :
  0 <= padding ->
  length (tiles_around cx cy padding) = Z.to_nat ((2 * padding + 1) ^ 2)
  /\ NoDup (tiles_around cx cy padding)
  /\ (forall x y, (x, y) ∈ tiles_around cx cy padding
        <-> exists dx dy, - padding <= dx <= padding /\ - padding <= dy <= padding
                          /\ x = cx + dx /\ y = cy + dy)
  /\ (lat_lon_to_tile center_lat center_lon zoom = Ok (cx, cy) ->
      (forall w,
         generate_zoom assets_dir vibe_path zoom padding w
         = (print (Generating_zoom zoom cx cy);;
            for_each (tiles_around cx cy padding)
              (fun t => generate_tile assets_dir vibe_path zoom t.1 t.2)) w)
      /\ (forall w,
            (forall path, makedirs_parent path = None) ->
            (forall path, unreadable path = None) ->
            (forall z x y, tile_source assets_dir (files w) z x y = None) ->
            exists w',
              generate_zoom assets_dir vibe_path zoom padding w = (Ok tt, w')
              /\ omap failed_tile (stdout w')
                 = omap failed_tile (stdout w) ++ tiles_around cx cy padding)).
Proof.
  intros Hp. split; [now apply tiles_around_length|].
  split; [apply tiles_around_NoDup|]. split; [intros x y; apply elem_of_tiles_around|].
  intros Hcen. split; [intros w; now apply generate_zoom_loops|].
  intros w Hmk Hrd Hnone.
  destruct (generate_zoom_run assets_dir vibe_path [] (Raster 0 0 []) (files w) Hmk Hrd
              (no_source_ok _ _ _ _ _ Hnone) zoom padding cx cy [] w Hcen)
    as (w' & Hrun & _ & Hout).
  { now apply progress_start. }
  { intros x y Hin. inversion Hin. }
  exists w'. split; [exact Hrun|]. rewrite Hout, omap_app. f_equal.
  apply zoom_log_all_fail. intros x y. apply Hnone.
Qed.

Lemma tiles_around_complete_witness :
  length (tiles_around 5239 12663 2) = 25%nat
  /\ exists w',
       generate_zoom (P := simple_pillow) (L := sf_libm) (E := offline)
         "assets" "vibe.png" 15 2 empty_world = (Ok tt, w')
       /\ omap failed_tile (stdout w') = tiles_around 5239 12663 2.
Proof.
  destruct (tiles_around_complete (P := simple_pillow) (L := sf_libm) (E := offline)
              "assets" "vibe.png" 15 5239 12663 2)
    as (Hlen & _ & _ & Hzoom); [lia|].
  split; [exact Hlen|].
  destruct Hzoom as [_ Hfail]; [vm_compute; reflexivity|].
  destruct (Hfail empty_world) as (w' & Hrun & Hout); try reflexivity.
  exists w'. split; [exact Hrun|exact Hout].
Defined.

(** ** A batch whose fetches fail *)

(** C9: a fetch that fails makes [download_osm_tile] return [False]; no
    exception leaves it.  The batch then skips the tile: it prints the
    failure, writes no skinned tile for it, and goes on; every tile that is
    cached or can be fetched is skinned.  The batch returns, with one
    outcome, saved or failed, for each of the 43 tiles.  In particular,
    when no tile is cached and every fetch fails, it returns after 43
    failures and no saved tile, and no skinned tile has changed.  The
    conditions are those under which skinning a tile cannot raise: the
    directories can be made, no path is unreadable, and every raw tile that
    is obtained decodes, can be saved, and comes with a vibe image that
    decodes and is no tile file. *)
Theorem batch_skips_failed_fetches {P : Pillow} {L : Libm} {E : Environment}
    (assets_dir vibe_path : string) (vibe_bytes : bytes) (vibe_img : image)
    (w : World) (c13 c14 c15 : Z * Z) :
  (forall path, makedirs_parent path = None) ->
  (forall path, unreadable path = None) ->
  (forall z x y b,
     tile_source assets_dir (files w) z x y = Some b ->
     is_Some (decode_RGB b) /\ save_error (tile_path (cartoon_dir assets_dir) z x y) = None
     /\ files w !! vibe_path = Some vibe_bytes /\ decode_RGB vibe_bytes = Some vibe_img
     /\ forall z' x' y', vibe_path <> tile_path (raw_dir assets_dir) z' x' y'
                         /\ vibe_path <> tile_path (cartoon_dir assets_dir) z' x' y') ->
  lat_lon_to_tile center_lat center_lon 13 = Ok c13 ->
  lat_lon_to_tile center_lat center_lon 14 = Ok c14 ->
  lat_lon_to_tile center_lat center_lon 15 = Ok c15 ->
  (forall z x y path w0 e,
     download_failure z x y path = Some e ->
     exists w1,
       download_osm_tile z x y path w0 = (Ok false, w1)
       /\ stdout w1 = stdout w0 ++ [Failed_to_download_tile z x y e])
  /\ exists w',
       let log := zoom_log assets_dir (files w) 13 c13.1 c13.2 1
                  ++ zoom_log assets_dir (files w) 14 c14.1 c14.2 1
                  ++ zoom_log assets_dir (files w) 15 c15.1 c15.2 2
                  ++ [Tile_generation_complete] in
       generate_sf_tiles assets_dir vibe_path w = (Ok tt, w')
       /\ stdout w' = stdout w ++ log
       /\ (length (List.filter is_saved log) + length (List.filter is_failure log) = 43)%nat
       /\ (forall zoom padding c x y,
             (zoom, padding, c) ∈ [(13, 1, c13); (14, 1, c14); (15, 2, c15)] ->
             (x, y) ∈ tiles_around c.1 c.2 padding ->
             match tile_source assets_dir (files w) zoom x y with
             | None =>
                 (exists e,
                    download_failure zoom x y (tile_path (raw_dir assets_dir) zoom x y)
                    = Some e
                    /\ Failed_to_download_tile zoom x y e ∈ log)
                 /\ files w' !! tile_path (cartoon_dir assets_dir) zoom x y
                    = files w !! tile_path (cartoon_dir assets_dir) zoom x y
             | Some b =>
                 exists img, decode_RGB b = Some img
                   /\ files w' !! tile_path (cartoon_dir assets_dir) zoom x y
                      = Some (encode_PNG (skin img vibe_img))
             end)
       /\ ((forall z x y, tile_source assets_dir (files w) z x y = None) ->
           length (List.filter is_failure log) = 43%nat
           /\ List.filter is_saved log = []
           /\ forall z x y,
                files w' !! tile_path (cartoon_dir assets_dir) z x y
                = files w !! tile_path (cartoon_dir assets_dir) z x y).
Proof.
  intros Hmk Hrd Hsrc H13 H14 H15. split.
  { intros z x y path w0 e He. eexists. rewrite download_run by apply Hmk. rewrite He.
    rewrite bool_decide_eq_false_2 by discriminate. split; reflexivity. }
  destruct (batch_run assets_dir vibe_path vibe_bytes vibe_img w c13 c14 c15
              Hmk Hrd Hsrc H13 H14 H15) as (w' & Hrun & Hout & Hother & Htiles).
  exists w'. cbv zeta. split; [exact Hrun|]. split; [exact Hout|].
  assert (H01 : 0 <= 1) by lia. assert (H02 : 0 <= 2) by lia.
  split; [|split].
  - pose proof (zoom_log_outcomes assets_dir (files w) 13 c13.1 c13.2 1 H01) as F1.
    pose proof (zoom_log_outcomes assets_dir (files w) 14 c14.1 c14.2 1 H01) as F2.
    pose proof (zoom_log_outcomes assets_dir (files w) 15 c15.1 c15.2 2 H02) as F3.
    rewrite !List.filter_app, !length_app.
    change (Z.to_nat ((2 * 1 + 1) ^ 2)) with 9%nat in F1, F2.
    change (Z.to_nat ((2 * 2 + 1) ^ 2)) with 25%nat in F3.
    cbn [List.filter is_saved is_failure length]. lia.
  - intros zoom padding c x y Hcfg Hin.
    destruct (Htiles zoom padding c x y Hcfg Hin) as [_ Hcar].
    destruct (tile_source assets_dir (files w) zoom x y) as [b|] eqn:Hts; [exact Hcar|].
    split; [|exact Hcar].
    destruct (tile_source_None _ _ _ _ _ Hts) as [Hraw [e He]]. exists e. split; [exact He|].
    assert (Hl : Failed_to_download_tile zoom x y e
                 ∈ zoom_log assets_dir (files w) zoom c.1 c.2 padding).
    { apply (tile_log_in_zoom_log _ _ _ _ _ _ x y); [exact Hin|].
      unfold tile_log. cbn [fst snd]. rewrite Hraw, He. apply list_elem_of_here. }
    rewrite !elem_of_app.
    apply elem_of_cons in Hcfg as [[= -> -> ->]|Hcfg]; [now left|].
    apply elem_of_cons in Hcfg as [[= -> -> ->]|Hcfg]; [right; now left|].
    apply elem_of_cons in Hcfg as [[= -> -> ->]|Hcfg]; [right; right; now left|].
    inversion Hcfg.
  - intros Hnone.
    destruct (zoom_log_all_fail assets_dir (files w) 13 c13.1 c13.2 1) as (_ & S1 & F1);
      [intros; apply Hnone|].
    destruct (zoom_log_all_fail assets_dir (files w) 14 c14.1 c14.2 1) as (_ & S2 & F2);
      [intros; apply Hnone|].
    destruct (zoom_log_all_fail assets_dir (files w) 15 c15.1 c15.2 2) as (_ & S3 & F3);
      [intros; apply Hnone|].
    rewrite tiles_around_length in F1, F2, F3 by lia.
    change (Z.to_nat ((2 * 1 + 1) ^ 2)) with 9%nat in F1, F2.
    change (Z.to_nat ((2 * 2 + 1) ^ 2)) with 25%nat in F3.
    rewrite !List.filter_app, !length_app, S1, S2, S3, F1, F2, F3.
    split; [reflexivity|]. split; [reflexivity|]. intros z x y.
    set (grid := map (fun t : Z * Z => (13, t.1, t.2)) (tiles_around c13.1 c13.2 1)
                 ++ map (fun t : Z * Z => (14, t.1, t.2)) (tiles_around c14.1 c14.2 1)
                 ++ map (fun t : Z * Z => (15, t.1, t.2)) (tiles_around c15.1 c15.2 2)).
    destruct (decide ((z, x, y) ∈ grid)) as [Hin|Hno].
    + assert (Hcfg : exists padding c,
                (z, padding, c) ∈ [(13, 1, c13); (14, 1, c14); (15, 2, c15)]
                /\ (x, y) ∈ tiles_around c.1 c.2 padding).
      { unfold grid in Hin. rewrite !elem_of_app in Hin.
        destruct Hin as [Hin|[Hin|Hin]];
          apply list_elem_of_fmap in Hin as ([x' y'] & [= -> -> ->] & Hin);
          eexists _, _; (split; [|exact Hin]); rewrite !elem_of_cons; auto. }
      destruct Hcfg as (padding & c & Hcfg & Hin').
      pose proof (Htiles z padding c x y Hcfg Hin') as [_ Hcar].
      now rewrite Hnone in Hcar.
    + apply Hother. intros zoom padding c x' y' Hcfg Hin. split.
      * intros Heq. symmetry in Heq. now apply raw_is_not_cartoon in Heq.
      * intros Heq. apply tile_path_inj in Heq as (-> & -> & ->). apply Hno.
        unfold grid. rewrite !elem_of_app.
        apply elem_of_cons in Hcfg as [[= -> -> ->]|Hcfg];
          [left; apply list_elem_of_fmap; exists (x', y'); auto|].
        apply elem_of_cons in Hcfg as [[= -> -> ->]|Hcfg];
          [right; left; apply list_elem_of_fmap; exists (x', y'); auto|].
        apply elem_of_cons in Hcfg as [[= -> -> ->]|Hcfg];
          [right; right; apply list_elem_of_fmap; exists (x', y'); auto|].
        inversion Hcfg.
Qed.

(** The sample vibe image is no tile file of the assets directory. *)
Lemma vibe_png_is_no_tile zoom x y :
  "vibe.png" <> tile_path (raw_dir "assets") zoom x y
  /\ "vibe.png" <> tile_path (cartoon_dir "assets") zoom x y.
Proof.
  destruct (tile_path_assets zoom x y) as (-> & -> & _).
  rewrite !string_app_cons. split; discriminate.
Qed.

Lemma batch_skips_failed_fetches_witness :
  exists w',
    generate_sf_tiles (P := simple_pillow) (L := sf_libm) (E := flaky)
      "assets" "vibe.png" vibe_only_world = (Ok tt, w')
    /\ files w' !! tile_path (cartoon_dir "assets") 14 2619 6331 = None
    /\ is_Some (files w' !! tile_path (cartoon_dir "assets") 14 2618 6331).
Proof.
  destruct (batch_skips_failed_fetches (P := simple_pillow) (L := sf_libm) (E := flaky)
              "assets" "vibe.png" (SimplePillow.encode vibe16) vibe16 vibe_only_world
              (1309, 3165) (2619, 6331) (5239, 12663))
    as (_ & w' & Hrun & _ & _ & Htiles & _).
  - reflexivity.
  - reflexivity.
  - intros z x y b Hb. unfold tile_source, vibe_only_world in Hb. cbn [files] in Hb.
    rewrite lookup_singleton_ne in Hb by apply vibe_png_is_no_tile.
    unfold download_failure, download_writes in Hb. cbn [urlopen open_wb_error flaky] in Hb.
    destruct (String.eqb _ _); [discriminate Hb|]. injection Hb as <-.
    split; [exists tile31; vm_compute; reflexivity|]. split; [reflexivity|].
    split; [reflexivity|]. split; [vm_compute; reflexivity|]. apply vibe_png_is_no_tile.
  - vm_compute. reflexivity.
  - vm_compute. reflexivity.
  - vm_compute. reflexivity.
  - exists w'. split; [exact Hrun|].
    assert (Hcfg : (14, 1, (2619, 6331))
                   ∈ [(13, 1, (1309, 3165)); (14, 1, (2619, 6331)); (15, 2, (5239, 12663))])
      by (rewrite !elem_of_cons; auto).
    split.
    + assert (Hin : (2619, 6331) ∈ tiles_around 2619 6331 1)
        by (apply elem_of_tiles_around; exists 0, 0; lia).
      pose proof (Htiles 14 1 (2619, 6331) 2619 6331 Hcfg Hin) as H.
      replace (tile_source (E := flaky) "assets" (files vibe_only_world) 14 2619 6331)
        with (@None bytes) in H by (vm_compute; reflexivity).
      destruct H as [_ H]. rewrite H. vm_compute. reflexivity.
    + assert (Hin : (2618, 6331) ∈ tiles_around 2619 6331 1)
        by (apply elem_of_tiles_around; exists (-1), 0; lia).
      pose proof (Htiles 14 1 (2619, 6331) 2618 6331 Hcfg Hin) as H.
      replace (tile_source (E := flaky) "assets" (files vibe_only_world) 14 2618 6331)
        with (Some (SimplePillow.encode tile31)) in H by (vm_compute; reflexivity).
      destruct H as (img & _ & H). rewrite H. eauto.
Defined.

(** ** The projection *)

(** A call of [lat_lon_to_tile] depends on the C library through three
    values only. *)
Lemma lat_lon_to_tile_libm_values {L : Libm} lat lon zoom t c l :
  c_tan (math_radians lat) = t ->
  c_cos (math_radians lat) = c ->
  c_log (F64.add t (F64.div (F64.of_Z 1) c)) = l ->
  lat_lon_to_tile lat lon zoom = lat_lon_to_tile (L := libm_values t c l) lat lon zoom.
Proof.
  intros Ht Hc Hl.
  unfold lat_lon_to_tile, math_tan, math_cos, math_log, math_1, m_log, truediv.
  cbn [c_tan c_cos c_log libm_values]. rewrite Ht, Hc.
  repeat first
    [ reflexivity
    | progress rewrite Hl
    | progress cbn [mbind result_bind]
    | match goal with
      | |- context [match ?r with Ok _ => _ | Err _ => _ end] =>
          match r with
          | context [if ?b then _ else _] => destruct b
          | _ => destruct r
          end
      | |- context [if ?b then _ else _] => destruct b
      end ].
Qed.

Ltac forall_list :=
  lazymatch goal with
  | |- Forall _ [] => constructor
  | |- Forall _ (_ :: _) => apply Forall_cons; split; [cbv beta zeta|forall_list]
  end.

Ltac each_of_range :=
  cbv beta zeta;
  try match goal with
      | |- Forall _ (seqZ ?lo ?n) =>
          let l := eval vm_compute in (seqZ lo n) in change (seqZ lo n) with l
      end;
  forall_list.

(** The call evaluated on every combination of library values within the
    tolerances. *)
Lemma sf_center_enumerated :
  Forall (fun k1 => Forall (fun k2 => Forall (fun k3 =>
    lat_lon_to_tile (L := libm_values (ulps sf_tan k1) (ulps sf_cos k2) (ulps sf_log k3))
      center_lat center_lon 14
    = Ok (2619, 6331)) (seqZ (-8) 17)) (seqZ (-1) 3)) (seqZ (-1) 3).
Proof. each_of_range; each_of_range; each_of_range; vm_compute; reflexivity. Qed.

(** C4: [lat_lon_to_tile(37.78825, -122.4324, 14)] is [(2619, 6331)], by
    the slippy-map formula in binary64, on every C library whose tangent and
    cosine of the latitude are within one unit in the last place of the
    correctly rounded values, and whose logarithm of their combination is
    within eight of its own. *)
Theorem lat_lon_to_tile_sf_center {L : Libm} :
  let lat_rad := math_radians center_lat in
  near sf_tan (c_tan lat_rad) 1 ->
  near sf_cos (c_cos lat_rad) 1 ->
  near sf_log (c_log (F64.add (c_tan lat_rad) (F64.div (F64.of_Z 1) (c_cos lat_rad)))) 8 ->
  lat_lon_to_tile center_lat center_lon 14 = Ok (2619, 6331).
Proof.
  intros lat_rad (k1 & Hk1 & Ht) (k2 & Hk2 & Hc) (k3 & Hk3 & Hl).
  pose proof sf_center_enumerated as Hall.
  rewrite Forall_seqZ in Hall. specialize (Hall k1 ltac:(lia)).
  rewrite Forall_seqZ in Hall. specialize (Hall k2 ltac:(lia)).
  rewrite Forall_seqZ in Hall. specialize (Hall k3 ltac:(lia)).
  rewrite <- Hall. apply lat_lon_to_tile_libm_values; [exact Ht|exact Hc|].
  fold lat_rad. rewrite <- Ht, <- Hc. exact Hl.
Qed.

Lemma lat_lon_to_tile_sf_center_witness :
  lat_lon_to_tile (L := sf_libm) center_lat center_lon 14 = Ok (2619, 6331).
Proof.
  apply (lat_lon_to_tile_sf_center (L := sf_libm));
    exists 0; (split; [lia|vm_compute; reflexivity]).
Defined.

(** * Further properties of the script *)

(** ** The tones of the saved image *)

(** The brightness boost on an 8-bit value. *)
Lemma boost_closed_form v :
  uint8 v -> astype_uint8 (boosted_channel (F32.of_Z v)) = Z.min 255 ((11 * v + 50) / 10).
Proof. apply boosted_uint8. Qed.

(** The brightness boost makes every band strictly brighter, except 255
    which it keeps; it keeps the order of two values; it maps 0 to 5, and
    exactly the values from 228 on to 255. *)
Theorem boost_brightens_in_order (v1 v2 : Z) :
  uint8 v1 -> uint8 v2 ->
  let boost v := astype_uint8 (boosted_channel (F32.of_Z v)) in
  (v1 < boost v1 \/ v1 = 255 /\ boost v1 = 255)
  /\ (v1 <= v2 -> boost v1 <= boost v2)
  /\ boost 0 = 5
  /\ (boost v1 = 255 <-> 228 <= v1).
Proof.
  intros H1 H2 boost. unfold boost.
  rewrite !(boost_closed_form v1), (boost_closed_form v2) by assumption.
  unfold uint8 in *.
  assert (Hd : v1 + 5 <= (11 * v1 + 50) / 10) by (apply Z.div_le_lower_bound; lia).
  assert (Hm : v1 <= v2 -> (11 * v1 + 50) / 10 <= (11 * v2 + 50) / 10)
    by (intros Hle; apply Z.div_le_mono; lia).
  assert (H228 : 228 <= v1 -> 255 <= (11 * v1 + 50) / 10)
    by (intros Hle; apply Z.div_le_lower_bound; lia).
  assert (H227 : v1 < 228 -> (11 * v1 + 50) / 10 < 255)
    by (intros Hlt; apply Z.div_lt_upper_bound; lia).
  split; [lia|]. split; [lia|]. split; [vm_compute; reflexivity|]. split; lia.
Qed.

Lemma boost_brightens_in_order_witness :
  astype_uint8 (boosted_channel (F32.of_Z 100))
  <= astype_uint8 (boosted_channel (F32.of_Z 200)).
Proof.
  apply (boost_brightens_in_order 100 200); unfold uint8; lia.
Defined.

(** Every band of every pixel of the image that [apply_skin] saves is at
    least 5: whatever the tile and the vibe image, the output has no black
    and no tone darker than 5. *)
Theorem skin_is_never_black {P : Pillow} (tile_img vibe_img : image) :
  wf_image tile_img ->
  Forall (rgb_all (fun v => 5 <= v <= 255)) (pixels (skin tile_img vibe_img)).
Proof.
  intros Hwf. unfold skin.
  destruct (influence_wf (posterized_tile tile_img) vibe_img
              (posterized_tile_wf tile_img Hwf)) as [_ Hall].
  rewrite brighten_pixels by exact Hall.
  apply Forall_forall. intros p Hp. apply list_elem_of_fmap in Hp as (q & -> & Hq).
  rewrite Forall_forall in Hall. destruct (Hall q Hq) as (Hr & Hg & Hb).
  unfold uint8 in *.
  assert (Hd : forall v, 0 <= v -> 5 <= (11 * v + 50) / 10)
    by (intros v Hv; apply Z.div_le_lower_bound; lia).
  pose proof (Hd _ (proj1 Hr)). pose proof (Hd _ (proj1 Hg)). pose proof (Hd _ (proj1 Hb)).
  repeat split; cbn; lia.
Qed.

Lemma skin_is_never_black_witness :
  wf_image tile31
  /\ Forall (rgb_all (fun v => 5 <= v <= 255))
       (pixels (skin (P := simple_pillow) tile31 tile31)).
Proof.
  split; [exact tile31_wf|].
  apply (skin_is_never_black (P := simple_pillow) tile31 tile31 tile31_wf).
Defined.

(** ** Posterization *)

(** Posterizing to four bits never brightens a band and darkens it by at
    most 15; it keeps the order of two values; and posterizing a posterized
    image changes nothing. *)
Theorem posterize_darkens_by_less_than_16 (im : image) (v1 v2 : Z) :
  (posterize_lut 4 v1 <= v1 < posterize_lut 4 v1 + 16)
  /\ (v1 <= v2 -> posterize_lut 4 v1 <= posterize_lut 4 v2)
  /\ posterize (posterize im 4) 4 = posterize im 4.
Proof.
  split; [|split].
  - rewrite posterize_lut_4. pose proof (Z.mod_pos_bound v1 16 ltac:(lia)).
    pose proof (Z.div_mod v1 16 ltac:(lia)). lia.
  - intros Hle. rewrite !posterize_lut_4.
    pose proof (Z.div_le_mono v1 v2 16 ltac:(lia) Hle). lia.
  - unfold posterize. rewrite raster_map_compose. apply raster_map_ext_Forall.
    apply Forall_forall. intros [r g b] _. unfold rgb_map; cbn.
    rewrite !posterize_lut_4.
    now rewrite !(Z.mul_comm 16), !Z.div_mul by lia.
Qed.

(** ** The edges of the projection *)

Ltac bind_ok H r :=
  let E := fresh "E" in
  destruct r eqn:E; cbn [mbind result_bind] in H; [|discriminate H].

(** The column of a returned tile is computed from the longitude and the
    zoom level alone. *)
Lemma lat_lon_to_tile_column {L : Libm} lat lon zoom x y :
  lat_lon_to_tile lat lon zoom = Ok (x, y) ->
  exists n q,
    num_tiles_float zoom = Ok n
    /\ truediv (F64.add lon (F64.of_Z 180)) (F64.of_Z 360) = Ok q
    /\ int (F64.mul q n) = Ok x.
Proof.
  unfold lat_lon_to_tile. intros H.
  destruct (num_tiles_float zoom) as [n|] eqn:En; cbn [mbind result_bind] in H;
    [|discriminate H].
  destruct (truediv (F64.add lon (F64.of_Z 180)) (F64.of_Z 360)) as [q|] eqn:Eq;
    cbn [mbind result_bind] in H; [|discriminate H].
  destruct (int (F64.mul q n)) as [x'|] eqn:Ex; cbn [mbind result_bind] in H;
    [|discriminate H].
  exists n, q. repeat split; try reflexivity.
  repeat match type of H with
         | context [mbind _ ?r] => destruct r; cbn [mbind result_bind] in H;
                                   [|discriminate H]
         end.
  change (Ok (x', a5) = Ok (x, y)) in H. injection H as <- <-. exact Ex.
Qed.

Lemma range_check (P : Z -> bool) lo n z :
  forallb P (seqZ lo n) = true -> lo <= z < lo + n -> P z = true.
Proof.
  intros Hall Hz. rewrite forallb_forall in Hall. apply Hall.
  apply list_elem_of_In, elem_of_seqZ. exact Hz.
Qed.

Lemma west_quotient :
  truediv (F64.add (F64.of_Z (-180)) (F64.of_Z 180)) (F64.of_Z 360) = Ok (S754_zero false).
Proof. vm_compute. reflexivity. Qed.

Lemma east_quotient :
  truediv (F64.add (F64.of_Z 180) (F64.of_Z 180)) (F64.of_Z 360) = Ok (F64.of_Z 1).
Proof. vm_compute. reflexivity. Qed.

Lemma east_columns zoom n x :
  0 <= zoom <= 1023 ->
  num_tiles_float zoom = Ok n -> int (F64.mul (F64.of_Z 1) n) = Ok x -> x = 2 ^ zoom.
Proof.
  intros Hz Hn Hx.
  pose proof (range_check
    (fun zoom => match num_tiles_float zoom with
                 | Ok n => match int (F64.mul (F64.of_Z 1) n) with
                           | Ok x => x =? 2 ^ zoom
                           | Err _ => true
                           end
                 | Err _ => true
                 end) 0 1024 zoom) as Hc.
  cbv beta in Hc. rewrite Hn, Hx in Hc. apply Z.eqb_eq, Hc; [|lia].
  vm_compute. reflexivity.
Qed.

(** On the antimeridian: a longitude of -180 degrees falls into column 0
    at every latitude and zoom level for which the function returns, and a
    longitude of +180 degrees into column [2 ** zoom], one past the last
    column of the grid, at the zoom levels 0 to 1023. *)
Theorem antimeridian_columns {L : Libm} (lat : spec_float) (zoom x y : Z) :
  (lat_lon_to_tile lat (F64.of_Z (-180)) zoom = Ok (x, y) -> x = 0)
  /\ (0 <= zoom <= 1023 ->
      lat_lon_to_tile lat (F64.of_Z 180) zoom = Ok (x, y) -> x = 2 ^ zoom).
Proof.
  split.
  - intros H. apply lat_lon_to_tile_column in H as (n & q & _ & Hq & Hx).
    rewrite west_quotient in Hq. injection Hq as <-.
    destruct n; cbn in Hx; congruence.
  - intros Hz H. apply lat_lon_to_tile_column in H as (n & q & Hn & Hq & Hx).
    rewrite east_quotient in Hq. injection Hq as <-.
    now apply (east_columns zoom n x).
Qed.

Lemma antimeridian_columns_witness :
  lat_lon_to_tile (L := sf_libm) center_lat (F64.of_Z (-180)) 13 = Ok (0, 3165)
  /\ 0 = 0.
Proof.
  split; [vm_compute; reflexivity|].
  apply (proj1 (antimeridian_columns (L := sf_libm) center_lat 13 0 3165)).
  vm_compute. reflexivity.
Defined.

Lemma origin_enumerated zoom :
  0 <= zoom <= 1023 ->
  lat_lon_to_tile (L := libm_values (S754_zero false) (F64.of_Z 1) (S754_zero false))
    (F64.of_Z 0) (F64.of_Z 0) zoom
  = Ok (2 ^ zoom / 2, 2 ^ zoom / 2).
Proof.
  intros Hz.
  pose proof (range_check
    (fun zoom =>
       match lat_lon_to_tile
               (L := libm_values (S754_zero false) (F64.of_Z 1) (S754_zero false))
               (F64.of_Z 0) (F64.of_Z 0) zoom with
       | Ok (x, y) => (x =? 2 ^ zoom / 2) && (y =? 2 ^ zoom / 2)
       | Err _ => false
       end) 0 1024 zoom) as Hc.
  cbv beta in Hc.
  destruct (lat_lon_to_tile _ _ zoom) as [[x y]|e].
  - apply andb_prop in Hc as [Hx%Z.eqb_eq Hy%Z.eqb_eq]; [congruence| |lia].
    vm_compute. reflexivity.
  - discriminate Hc; [vm_compute; reflexivity|lia].
Qed.

(** Latitude 0, longitude 0 is the centre of the grid at every zoom level
    from 0 to 1023: the tile [(2 ** zoom // 2, 2 ** zoom // 2)], on every C
    library that is exact at the three arguments the call forms: tan(0) = 0,
    cos(0) = 1 and log(1) = 0. *)
Theorem origin_is_the_grid_centre {L : Libm} (zoom : Z) :
  c_tan (S754_zero false) = S754_zero false ->
  c_cos (S754_zero false) = F64.of_Z 1 ->
  c_log (F64.of_Z 1) = S754_zero false ->
  0 <= zoom <= 1023 ->
  lat_lon_to_tile (F64.of_Z 0) (F64.of_Z 0) zoom = Ok (2 ^ zoom / 2, 2 ^ zoom / 2).
Proof.
  intros Ht Hc Hl Hz. rewrite <- (origin_enumerated zoom Hz).
  apply lat_lon_to_tile_libm_values.
  - change (math_radians (F64.of_Z 0)) with (S754_zero false). exact Ht.
  - change (math_radians (F64.of_Z 0)) with (S754_zero false). exact Hc.
  - change (F64.add (S754_zero false) (F64.div (F64.of_Z 1) (F64.of_Z 1)))
      with (F64.of_Z 1). exact Hl.
Qed.

Lemma origin_is_the_grid_centre_witness :
  lat_lon_to_tile (L := libm_values (S754_zero false) (F64.of_Z 1) (S754_zero false))
    (F64.of_Z 0) (F64.of_Z 0) 15
  = Ok (16384, 16384).
Proof.
  apply (origin_is_the_grid_centre
           (L := libm_values (S754_zero false) (F64.of_Z 1) (S754_zero false)) 15);
    [reflexivity|reflexivity|reflexivity|lia].
Defined.

(** Where the argument of the logarithm is not positive, [lat_lon_to_tile]
    returns no tile: with a finite tangent, a finite nonzero cosine and a
    finite sum [tan + 1 / cos] that is zero or negative, the call raises
    [ValueError] (from [math.log], or from [int] in the column), or
    [OverflowError] (from the zoom level or from [int] in the column).  The
    south pole is such a latitude. *)
Theorem nonpositive_log_argument_raises {L : Libm} (lat lon : spec_float) (zoom : Z) :
  let t := c_tan (math_radians lat) in
  let c := c_cos (math_radians lat) in
  let a := F64.add t (F64.div (F64.of_Z 1) c) in
  is_finite t = true ->
  is_finite c = true -> F64.eqb c (F64.of_Z 0) = false ->
  is_finite a = true -> F64.ltb (F64.of_Z 0) a = false ->
  lat_lon_to_tile lat lon zoom = Err ValueError
  \/ lat_lon_to_tile lat lon zoom = Err OverflowError.
Proof.
  intros t c a Ht Hc Hc0 Ha Hpos. unfold lat_lon_to_tile.
  destruct (num_tiles_float zoom) as [n|e] eqn:En; cbn [mbind result_bind].
  2:{ revert En. unfold num_tiles_float. destruct (0 <=? zoom); [|intros H; discriminate H].
      destruct (is_finite (F64.of_Z (2 ^ zoom))); intros H; [discriminate H|].
      injection H as <-. now right. }
  assert (Hnt : is_nan t = false) by (destruct t; try discriminate Ht; reflexivity).
  assert (Hnc : is_nan c = false) by (destruct c; try discriminate Hc; reflexivity).
  assert (Hna : is_nan a = false) by (destruct a; try discriminate Ha; reflexivity).
  unfold truediv, int, math_tan, math_cos, math_log, math_1, m_log.
  change (F64.eqb (F64.of_Z 360) (F64.of_Z 0)) with false.
  cbn [mbind result_bind].
  set (xf := F64.mul (F64.div (F64.add lon (F64.of_Z 180)) (F64.of_Z 360)) n).
  destruct (trunc xf); cbn [mbind result_bind];
    [|destruct (is_nan xf); [now left|now right]].
  left. fold t c. cbv zeta. rewrite Hnt, Hnc, Ht, Hc.
  cbn [andb negb mbind result_bind]. rewrite Hc0. cbn [mbind result_bind].
  fold a. rewrite Ha, Hpos, Hna.
  destruct (F64.eqb a (F64.of_Z 0)); reflexivity.
Qed.

Lemma nonpositive_log_argument_raises_witness :
  lat_lon_to_tile (L := libm_values south_pole_tan south_pole_cos S754_nan)
    (F64.of_Z (-90)) (F64.of_Z 0) 14
  = Err ValueError.
Proof.
  destruct (nonpositive_log_argument_raises
              (L := libm_values south_pole_tan south_pole_cos S754_nan)
              (F64.of_Z (-90)) (F64.of_Z 0) 14
              eq_refl eq_refl eq_refl eq_refl eq_refl) as [H|H].
  - exact H.
  - vm_compute in H. discriminate H.
Defined.

(** ** [download_osm_tile] *)

Section DownloadEffects.
Context {E : Environment}.

(** What a call leaves on disk.  With the directory in place the call
    returns whether the tile was fetched, and changes no other file.  A
    fetch that cannot connect, or whose file cannot be opened for writing,
    leaves the file as it was; a fetch that fails while reading leaves the
    file empty, whatever it held; a fetched tile is the content of the
    file.  Every failure is printed with its exception. *)
Theorem download_leaves_on_disk (z x y : Z) (output_path : string) (w : World) :
  makedirs_parent output_path = None ->
  exists (downloaded : bool) w',
    download_osm_tile z x y output_path w = (Ok downloaded, w')
    /\ (forall p, p <> output_path -> files w' !! p = files w !! p)
    /\ match urlopen (osm_url z x y), open_wb_error output_path with
       | Connect_fails e, _ | Read_fails _, Some e | Body _, Some e =>
           downloaded = false /\ files w' !! output_path = files w !! output_path
           /\ stdout w' = stdout w ++ [Failed_to_download_tile z x y e]
       | Read_fails e, None =>
           downloaded = false /\ files w' !! output_path = Some []
           /\ stdout w' = stdout w ++ [Failed_to_download_tile z x y e]
       | Body data, None =>
           downloaded = true /\ files w' !! output_path = Some data
           /\ stdout w' = stdout w ++ [Downloaded_tile z x y output_path]
       end.
Proof.
  intros Hmk. eexists _, _. rewrite download_run by exact Hmk.
  split; [reflexivity|]. unfold download_failure, download_writes. cbn [files stdout].
  destruct (urlopen (osm_url z x y)) as [e|e|data];
    destruct (open_wb_error output_path) as [e'|]; cbn;
    (split; [intros p Hp; now rewrite ?lookup_insert_ne by auto|]);
    rewrite ?lookup_insert_eq; auto.
Qed.

(** The call raises only what [os.makedirs] raises, and then before it has
    opened a connection or a file: no failure of the network or of the file
    leaves it as an exception. *)
Theorem download_raises_only_makedirs (z x y : Z) (output_path : string) (w w' : World)
    (e : exn) :
  download_osm_tile z x y output_path w = (Err e, w')
  <-> makedirs_parent output_path = Some e /\ w' = w.
Proof.
  destruct (makedirs_parent output_path) as [e'|] eqn:Hmk.
  - unfold download_osm_tile, os_makedirs_parent. rewrite Hmk.
    unfold raise, mbind, Py_bind.
    split; [intros [= -> ->]; auto|]. now intros [[= ->] ->].
  - rewrite download_run by exact Hmk. split; [discriminate|intros [? _]; discriminate].
Qed.

End DownloadEffects.

Lemma download_leaves_on_disk_witness :
  exists downloaded w',
    download_osm_tile (E := stalling) 14 2619 6331 "raw.png"
      {| files := {[ "raw.png" := [137; 80; 78; 71] ]}; stdout := [] |}
    = (Ok downloaded, w')
    /\ downloaded = false /\ files w' !! "raw.png" = Some [].
Proof.
  destruct (download_leaves_on_disk (E := stalling) 14 2619 6331 "raw.png"
              {| files := {[ "raw.png" := [137; 80; 78; 71] ]}; stdout := [] |} eq_refl)
    as (d & w' & Hrun & _ & Hd & Hfile & _).
  exists d, w'. auto.
Defined.

(** ** [apply_skin] *)

Section ApplySkinEffects.
Context {P : Pillow} {E : Environment}.

(** Opening an image raises what the operating system raises for a path
    that cannot be read, [FileNotFoundError] for a path that does not exist,
    and what Pillow raises for contents it cannot decode; nothing else.  A
    call of [apply_skin] that raises has written and printed nothing, and
    what it raises is the exception of opening the tile; or, the tile
    opened, that of opening the vibe image; or, both opened, that of
    [os.makedirs]; or else that of opening the output file.  A call that
    returns has written the skinned tile to the output file, printed one
    line and changed no other file. *)
Theorem apply_skin_touches_only_output (tile_path vibe_path output_path : string)
    (w : World) :
  (forall path e,
     (Image_open_RGB path w).1 = Err e
     <-> unreadable path = Some e
         \/ (unreadable path = None /\ files w !! path = None
             /\ e = FileNotFoundError path)
         \/ (unreadable path = None
             /\ exists b, files w !! path = Some b /\ decode_RGB b = None
                          /\ e = decode_error path b))
  /\ match apply_skin tile_path vibe_path output_path w with
     | (Err e, w') =>
         w' = w
         /\ ((Image_open_RGB tile_path w).1 = Err e
             \/ (exists tile_img, (Image_open_RGB tile_path w).1 = Ok tile_img)
                /\ ((Image_open_RGB vibe_path w).1 = Err e
                    \/ (exists vibe_img, (Image_open_RGB vibe_path w).1 = Ok vibe_img)
                       /\ (makedirs_parent output_path = Some e
                           \/ makedirs_parent output_path = None
                              /\ save_error output_path = Some e)))
     | (Ok _, w') =>
         (exists tile_img vibe_img,
            (Image_open_RGB tile_path w).1 = Ok tile_img
            /\ (Image_open_RGB vibe_path w).1 = Ok vibe_img
            /\ files w' !! output_path = Some (encode_PNG (skin tile_img vibe_img)))
         /\ (forall p, p <> output_path -> files w' !! p = files w !! p)
         /\ stdout w' = stdout w ++ [Saved_skinned_tile output_path]
     end.
Proof.
  split.
  - intros path e. unfold Image_open_RGB.
    destruct (unreadable path) as [e'|] eqn:Hu; cbn.
    { split; [intros [= ->]; auto|].
      intros [[= ->]|[(H & _)|(H & _)]]; [reflexivity|discriminate H..]. }
    destruct (files w !! path) as [b|] eqn:Hb; cbn.
    + destruct (decode_RGB b) as [im|] eqn:Hd; cbn.
      * split; [discriminate|].
        intros [H|[(_ & H & _)|(_ & b' & [= <-] & H & _)]]; try discriminate H.
        rewrite Hd in H. discriminate H.
      * split; [intros [= <-]; right; right; eauto|].
        intros [H|[(_ & H & _)|(_ & b' & [= <-] & _ & ->)]]; try discriminate H.
        reflexivity.
    + split; [intros [= <-]; auto|].
      intros [H|[(_ & _ & ->)|(_ & b' & H & _)]]; try discriminate H. reflexivity.
  - rewrite apply_skin_run, !Image_open_RGB_run. cbn [fst].
    destruct (read_image tile_path (files w)) as [tile_img|e]; [|auto].
    destruct (read_image vibe_path (files w)) as [vibe_img|e]; [|eauto 6].
    destruct (makedirs_parent output_path) as [e|]; [eauto 10|].
    destruct (save_error output_path) as [e|]; [eauto 10|].
    cbn [files stdout]. split; [|split; [|reflexivity]].
    + exists tile_img, vibe_img. now rewrite lookup_insert_eq.
    + intros p Hp. now rewrite lookup_insert_ne by auto.
Qed.

End ApplySkinEffects.

(** ** A fetch that fails while reading *)

Lemma first_tile_of_grid cx cy :
  exists rest, tiles_around cx cy 1 = (cx - 1, cy - 1) :: rest.
Proof. eexists. unfold tiles_around, range. cbn. reflexivity. Qed.

(** A fetch that fails while the response is read leaves an empty file in
    the cache, and every later batch stops at it.  Let the first tile of
    zoom level 13 be absent from the cache, let its fetch fail after the
    file was opened, and let the other tiles be fetched and skinned or
    skipped.  The batch returns and leaves the tile's raw file empty.  A
    second batch on these files, whatever the network does then, finds the
    file, does not fetch the tile again, and raises what Pillow raises on
    an empty file, after the heading of zoom level 13 and before any tile
    is skinned. *)
Theorem stale_tile_breaks_later_runs {P : Pillow} {L : Libm} (E1 E2 : Environment)
    (assets_dir vibe_path : string) (vibe_bytes : bytes) (vibe_img : image)
    (w : World) (c13 c14 c15 : Z * Z) (e : exn) :
  let raw := tile_path (raw_dir assets_dir) 13 (c13.1 - 1) (c13.2 - 1) in
  (forall path, @makedirs_parent E1 path = None) ->
  (forall path, @unreadable E1 path = None) ->
  (forall z x y b,
     tile_source (E := E1) assets_dir (files w) z x y = Some b ->
     is_Some (decode_RGB b)
     /\ @save_error E1 (tile_path (cartoon_dir assets_dir) z x y) = None
     /\ files w !! vibe_path = Some vibe_bytes /\ decode_RGB vibe_bytes = Some vibe_img
     /\ forall z' x' y', vibe_path <> tile_path (raw_dir assets_dir) z' x' y'
                         /\ vibe_path <> tile_path (cartoon_dir assets_dir) z' x' y') ->
  lat_lon_to_tile center_lat center_lon 13 = Ok c13 ->
  lat_lon_to_tile center_lat center_lon 14 = Ok c14 ->
  lat_lon_to_tile center_lat center_lon 15 = Ok c15 ->
  files w !! raw = None ->
  @urlopen E1 (osm_url 13 (c13.1 - 1) (c13.2 - 1)) = Read_fails e ->
  @open_wb_error E1 raw = None ->
  decode_RGB [] = None ->
  @unreadable E2 raw = None ->
  exists w1,
    generate_sf_tiles (E := E1) assets_dir vibe_path w = (Ok tt, w1)
    /\ files w1 !! raw = Some []
    /\ generate_sf_tiles (E := E2) assets_dir vibe_path w1
       = (Err (decode_error raw []),
          {| files := files w1;
             stdout := stdout w1 ++ [Generating_zoom 13 c13.1 c13.2] |}).
Proof.
  intros raw Hmk Hrd Hsrc H13 H14 H15 Hnew Hfetch Hopen Hempty Hrd2.
  destruct (batch_run (E := E1) assets_dir vibe_path vibe_bytes vibe_img w c13 c14 c15
              Hmk Hrd Hsrc H13 H14 H15) as (w1 & Hrun & _ & _ & Htiles).
  exists w1. split; [exact Hrun|].
  assert (Hraw : files w1 !! raw = Some []).
  { destruct (Htiles 13 1 c13 (c13.1 - 1) (c13.2 - 1)) as [Hr _].
    - rewrite !elem_of_cons; auto.
    - apply elem_of_tiles_around. exists (-1), (-1). lia.
    - etrans; [exact Hr|]. unfold raw_after. fold raw. rewrite Hnew.
      unfold download_writes. fold raw. now rewrite Hfetch, Hopen. }
  split; [exact Hraw|].
  destruct c13 as [cx cy]. subst raw. cbn [fst snd] in *.
  set (raw := tile_path (raw_dir assets_dir) 13 (cx - 1) (cy - 1)) in *.
  unfold generate_sf_tiles, zoom_configs. cbn [for_each].
  unfold mbind at 1, Py_bind at 1. unfold mbind at 1, Py_bind at 1.
  rewrite (generate_zoom_loops (E := E2) assets_dir vibe_path 13 1 cx cy w1 H13).
  destruct (first_tile_of_grid cx cy) as (rest & ->). cbn [for_each].
  unfold print at 1. unfold mbind at 1, Py_bind at 1. unfold mbind at 1, Py_bind at 1.
  cbn [fst snd]. unfold generate_tile. fold raw.
  unfold mbind at 1, Py_bind at 1. unfold os_path_exists at 1. cbn [files].
  assert (Hfile : @lookup string bytes (gmap string bytes) _ raw (files w1) = Some [])
    by exact Hraw.
  rewrite Hfile. rewrite bool_decide_eq_true_2 by eauto. cbn [orb negb].
  unfold mbind at 1, Py_bind at 1. unfold mret at 1, Py_ret at 1.
  rewrite apply_skin_run. cbn [files]. unfold read_image. now rewrite Hrd2, Hfile, Hempty.
Qed.

(** No tile of the assets directory is the sample vibe image. *)
Lemma raw_tile_is_not_vibe_png zoom x y :
  ({[ "vibe.png" := SimplePillow.encode vibe16 ]} : gmap string bytes)
  !! tile_path (raw_dir "assets") zoom x y = None.
Proof. apply lookup_singleton_ne, vibe_png_is_no_tile. Qed.

Lemma stale_tile_breaks_later_runs_witness :
  exists w1,
    generate_sf_tiles (P := simple_pillow) (L := sf_libm) (E := stalling)
      "assets" "vibe.png" vibe_only_world = (Ok tt, w1)
    /\ files w1 !! "assets/skins/_raw_tiles/13/1308/3164.png" = Some []
    /\ (generate_sf_tiles (P := simple_pillow) (L := sf_libm) (E := online)
          "assets" "vibe.png" w1).1
       = Err (UnidentifiedImageError "assets/skins/_raw_tiles/13/1308/3164.png").
Proof.
  destruct (stale_tile_breaks_later_runs (P := simple_pillow) (L := sf_libm)
              stalling online "assets" "vibe.png" (SimplePillow.encode vibe16) vibe16
              vibe_only_world (1309, 3165) (2619, 6331) (5239, 12663)
              (TimeoutError (osm_url 13 1308 3164)))
    as (w1 & Hrun & Hraw & Hagain).
  - reflexivity.
  - reflexivity.
  - intros z x y b Hb. unfold tile_source, vibe_only_world in Hb. cbn [files] in Hb.
    rewrite raw_tile_is_not_vibe_png in Hb. discriminate Hb.
  - vm_compute. reflexivity.
  - vm_compute. reflexivity.
  - vm_compute. reflexivity.
  - apply raw_tile_is_not_vibe_png.
  - reflexivity.
  - reflexivity.
  - vm_compute. reflexivity.
  - reflexivity.
  - exists w1. split; [exact Hrun|]. split; [exact Hraw|]. now rewrite Hagain.
Defined.

(** ** The order of the grid *)

Lemma StronglySorted_bind {A B} (R1 : relation A) (R2 : relation B)
    (f : A -> list B) (l : list A) :
  (forall x, StronglySorted R2 (f x)) ->
  (forall x1 x2 y1 y2, R1 x1 x2 -> y1 ∈ f x1 -> y2 ∈ f x2 -> R2 y1 y2) ->
  StronglySorted R1 l -> StronglySorted R2 (l ≫= f).
Proof.
  intros Hf HR. induction 1 as [|x l Hs IH Hall]; [constructor|].
  change ((x :: l) ≫= f) with (f x ++ (l ≫= f)).
  apply StronglySorted_app_2; [|apply Hf|exact IH].
  intros y1 y2 Hy1 Hy2. apply list_elem_of_bind in Hy2 as (x2 & Hy2 & Hx2).
  rewrite Forall_forall in Hall. eauto.
Qed.

Lemma StronglySorted_range lo hi : StronglySorted Z.lt (range lo hi).
Proof.
  unfold range. generalize (hi - lo) as n. intros n. unfold seqZ.
  generalize (Z.to_nat n) as k. clear. intros k.
  assert (H : forall j, StronglySorted Z.lt ((fun i : nat => Z.of_nat i + lo) <$> seq j k)).
  { induction k as [|k IH]; intros j; [constructor|]. cbn. constructor; [apply IH|].
    apply Forall_fmap, Forall_forall. intros i Hi. apply elem_of_seq in Hi. cbn. lia. }
  apply H.
Qed.

Lemma last_bind_snoc {A B} (f : A -> list B) (l : list A) (x : A) (y : B) :
  last (f x) = Some y -> last ((l ++ [x]) ≫= f) = Some y.
Proof.
  intros Hy. rewrite bind_app. cbn. rewrite app_nil_r, last_app. now rewrite Hy.
Qed.

(** One zoom level deals with its tiles column by column from west to east,
    and with each column from north to south: the first tile is the
    north-west corner, the last the south-east corner; with a negative
    padding there is no tile.  Where every tile can be fetched and skinned
    or is skipped, [generate_zoom] returns, and what it printed is its
    heading followed by the lines of each tile, tile after tile in this
    order, every tile with at least one line. *)
Theorem tiles_around_in_order {P : Pillow} {L : Libm} {E : Environment}
    (assets_dir vibe_path : string) (vibe_bytes : bytes) (vibe_img : image)
    (w : World) (zoom cx cy padding : Z) :
  StronglySorted visited_before (tiles_around cx cy padding)
  /\ (padding < 0 -> tiles_around cx cy padding = [])
  /\ (0 <= padding ->
      head (tiles_around cx cy padding) = Some (cx - padding, cy - padding)
      /\ last (tiles_around cx cy padding) = Some (cx + padding, cy + padding)
      /\ (cx, cy) ∈ tiles_around cx cy padding)
  /\ (forall t, tile_log assets_dir (files w) zoom t <> [])
  /\ ((forall path, makedirs_parent path = None) ->
      (forall path, unreadable path = None) ->
      (forall z x y b,
         tile_source assets_dir (files w) z x y = Some b ->
         is_Some (decode_RGB b)
         /\ save_error (tile_path (cartoon_dir assets_dir) z x y) = None
         /\ files w !! vibe_path = Some vibe_bytes /\ decode_RGB vibe_bytes = Some vibe_img
         /\ forall z' x' y', vibe_path <> tile_path (raw_dir assets_dir) z' x' y'
                             /\ vibe_path <> tile_path (cartoon_dir assets_dir) z' x' y') ->
      lat_lon_to_tile center_lat center_lon zoom = Ok (cx, cy) ->
      exists w',
        generate_zoom assets_dir vibe_path zoom padding w = (Ok tt, w')
        /\ stdout w'
           = stdout w ++ Generating_zoom zoom cx cy
                         :: concat (map (tile_log assets_dir (files w) zoom)
                                      (tiles_around cx cy padding))).
Proof.
  split; [|split; [|split; [|split]]].
  - unfold tiles_around. apply (StronglySorted_bind Z.lt); [| |apply StronglySorted_range].
    + intros dx. apply (StronglySorted_bind Z.lt); [| |apply StronglySorted_range].
      * intros dy. repeat constructor.
      * intros dy1 dy2 t1 t2 Hlt H1 H2. apply list_elem_of_singleton in H1, H2. subst.
        right. cbn. lia.
    + intros dx1 dx2 t1 t2 Hlt H1 H2.
      apply list_elem_of_bind in H1 as (dy1 & H1 & _), H2 as (dy2 & H2 & _).
      apply list_elem_of_singleton in H1, H2. subst. left. cbn. lia.
  - intros Hp. unfold tiles_around, range. now rewrite seqZ_nil by lia.
  - intros Hp. split; [|split].
    + unfold tiles_around, range. rewrite (seqZ_cons (- padding)) by lia.
      cbn. do 2 f_equal; lia.
    + unfold tiles_around, range.
      replace (padding + 1 - - padding) with (Z.of_nat (S (Z.to_nat (2 * padding)))) by lia.
      rewrite seqZ_S. do 2 apply last_bind_snoc. cbn. do 2 f_equal; lia.
    + apply elem_of_tiles_around. exists 0, 0. lia.
  - intros t Hnil. unfold tile_log in Hnil. cbv zeta in Hnil.
    destruct (files w !! tile_path (raw_dir assets_dir) zoom t.1 t.2);
      [discriminate Hnil|].
    destruct (download_failure zoom t.1 t.2 _); discriminate Hnil.
  - intros Hmk Hrd Hsrc Hcen.
    destruct (generate_zoom_run assets_dir vibe_path vibe_bytes vibe_img (files w) Hmk Hrd
                Hsrc zoom padding cx cy [] w Hcen) as (w' & Hrun & _ & Hout).
    { now apply progress_start. }
    { intros x y Hin. inversion Hin. }
    exists w'. split; [exact Hrun|exact Hout].
Qed.

Lemma tiles_around_in_order_witness :
  exists w',
    generate_zoom (P := simple_pillow) (L := sf_libm) (E := offline)
      "assets" "vibe.png" 15 2 empty_world = (Ok tt, w')
    /\ head (omap failed_tile (stdout w')) = Some (5237, 12661)
    /\ last (omap failed_tile (stdout w')) = Some (5241, 12665).
Proof.
  destruct (tiles_around_in_order (P := simple_pillow) (L := sf_libm) (E := offline)
              "assets" "vibe.png" [] (Raster 0 0 []) empty_world 15 5239 12663 2)
    as (_ & _ & _ & _ & Hrun).
  destruct Hrun as (w' & Hrun & Hout).
  - reflexivity.
  - reflexivity.
  - intros z x y b Hb. unfold tile_source, empty_world in Hb. cbn [files] in Hb.
    rewrite lookup_empty in Hb. discriminate Hb.
  - vm_compute. reflexivity.
  - exists w'. split; [exact Hrun|]. rewrite Hout. vm_compute. auto.
Defined.

(** ** The command line *)

(** The example drawing operations meet the laws of the interface. *)
Module SimpleDrawLaws.

Lemma fill_box_wf im x0 y0 x1 y1 c :
  wf_image im -> rgb_all uint8 c -> wf_image (SimpleDraw.fill_box im x0 y0 x1 y1 c).
Proof.
  intros [Hr Hall] Hc. split.
  - unfold rectangular, SimpleDraw.fill_box; cbn. now rewrite length_imap.
  - unfold SimpleDraw.fill_box; cbn. apply Forall_forall. intros p Hp.
    apply elem_of_lookup_imap_1 in Hp as (k & q & -> & Hq).
    destruct (_ && _); [exact Hc|].
    rewrite Forall_forall in Hall. apply Hall. eapply list_elem_of_lookup_2, Hq.
Qed.

End SimpleDrawLaws.

Definition simple_draw : ImageDraw := {|
  draw_rectangle := SimpleDraw.rectangle;
  draw_line := SimpleDraw.line;
  draw_rectangle_wf := fun im box c =>
    match box with (x0, y0, x1, y1) => SimpleDrawLaws.fill_box_wf im x0 y0 x1 y1 c end;
  draw_rectangle_size := fun im box c => match box with (x0, y0, x1, y1) => eq_refl end;
  draw_line_wf := fun im p q c width => SimpleDrawLaws.fill_box_wf im _ _ _ _ c;
  draw_line_size := fun im p q c width => eq_refl
|}.

Lemma Image_new_wf w h c : rgb_all uint8 c -> wf_image (Image_new w h c).
Proof. apply uniform_wf. Qed.

Lemma fold_left_invariant {A B} (Inv : A -> Prop) (f : A -> B -> A) (l : list B) (a : A) :
  Forall (fun b => forall a, Inv a -> Inv (f a b)) l -> Inv a -> Inv (fold_left f l a).
Proof.
  revert a. induction l as [|b l IH]; intros a Hl Ha; [exact Ha|].
  apply Forall_cons in Hl as [Hb Hl]. cbn. apply IH; [exact Hl|]. now apply Hb.
Qed.

Section DefaultVibe.
Context {D : ImageDraw}.

(** The default vibe image is a 256 x 256 image. *)
Lemma default_vibe_wf_size : wf_image default_vibe /\ size default_vibe = (256%nat, 256%nat).
Proof.
  assert (Hc : forall r g b, uint8 r -> uint8 g -> uint8 b -> rgb_all uint8 (RGB r g b))
    by (intros; unfold rgb_all; cbn; auto).
  unfold default_vibe.
  apply (fold_left_invariant (fun im => wf_image im /\ size im = (256%nat, 256%nat))).
  { apply Forall_forall. intros i _ im [Hwf Hsz]. split.
    - do 2 (apply draw_line_wf; [|apply Hc; unfold uint8; lia]). exact Hwf.
    - now rewrite !draw_line_size. }
  apply (fold_left_invariant (fun im => wf_image im /\ size im = (256%nat, 256%nat))).
  { change (enumerate colors) with
      [(0, RGB 255 230 50); (1, RGB 80 210 120); (2, RGB 100 170 250);
       (3, RGB 255 120 100); (4, RGB 200 160 255); (5, RGB 255 180 50)].
    forall_list; intros im [Hwf Hsz];
      (split; [apply draw_rectangle_wf; [exact Hwf|apply Hc; unfold uint8; lia]
              |now rewrite draw_rectangle_size]). }
  split; [|reflexivity]. apply Image_new_wf, Hc; unfold uint8; lia.
Qed.

End DefaultVibe.

Lemma session_eta s : {| disk := disk s; terminal := terminal s |} = s.
Proof. now destruct s. Qed.

(** The tile bookkeeping looks at the cache only: a file that is no raw
    tile does not change it. *)
Section OtherFile.
Context {E : Environment}.
Variables (assets_dir path : string) (b : bytes) (fs : gmap string bytes).
Hypothesis not_raw : forall z x y, path <> tile_path (raw_dir assets_dir) z x y.




End OtherFile.

Section Main.
Context {P : Pillow} {D : ImageDraw} {L : Libm} {E : Environment} {I : Installation}.

Lemma check_dependencies_run s :
  _check_dependencies s
  = if numpy_importable && PIL_importable then (Returns tt, s)
    else
      let missing := (if numpy_importable then [] else ["numpy"])
                     ++ (if PIL_importable then [] else ["Pillow"]) in
      (SystemExit 1,
       {| disk := disk s;
          terminal := terminal s ++ [Missing_dependencies missing; Install_with missing] |}).
Proof.
  unfold _check_dependencies.
  destruct numpy_importable, PIL_importable; cbn; try reflexivity;
    unfold mbind, Cmd_bind, say, sys_exit; cbn; now rewrite <- app_assoc.
Qed.

Lemma create_default_vibe_image_run output_path s :
  create_default_vibe_image output_path s
  = match makedirs_parent output_path with
    | Some e => (Raises e, s)
    | None =>
        match save_error output_path with
        | Some e => (Raises e, s)
        | None =>
            (Returns tt,
             {| disk := <[output_path := encode_PNG default_vibe]> (disk s);
                terminal := terminal s ++ [Created_default_vibe_image output_path] |})
        end
    end.
Proof.
  unfold create_default_vibe_image, os_makedirs_parent, Image_save_PNG, write, call, say.
  unfold mbind, Cmd_bind.
  destruct (makedirs_parent output_path); cbn.
  - now rewrite app_nil_r, session_eta.
  - destruct (save_error output_path); cbn.
    + now rewrite !app_nil_r, session_eta.
    + now rewrite !app_nil_r.
Qed.

(** With [--create-vibe], whatever else the command line holds, [main]
    writes the default vibe image and nothing else: the file at the vibe
    path ([--vibe], or [assets/skins/cartoon_vibe.png] when it is absent or
    empty) decodes to a 256 x 256 image, every other file is as it was, and
    one line is printed.  It raises only what [os.makedirs] raises or,
    the directory made, what opening the file for writing raises, and then
    the session is untouched. *)
Theorem create_vibe_writes_only_the_vibe (a : args.Namespace) (s : Session) :
  numpy_importable = true -> PIL_importable = true ->
  args.create_vibe a = true ->
  let vibe_path := or_ (args.vibe a) "assets/skins/cartoon_vibe.png" in
  match main a s with
  | (Returns _, s') =>
      (exists img, disk s' !! vibe_path ≫= decode_RGB = Some img
                   /\ size img = (256%nat, 256%nat))
      /\ (forall p, p <> vibe_path -> disk s' !! p = disk s !! p)
      /\ terminal s' = terminal s ++ [Created_default_vibe_image vibe_path]
  | (Raises e, s') =>
      (makedirs_parent vibe_path = Some e
       \/ makedirs_parent vibe_path = None /\ save_error vibe_path = Some e)
      /\ s' = s
  | (SystemExit _, _) => False
  end.
Proof.
  intros Hn Hp Hcv vibe_path. unfold main. unfold mbind at 1, Cmd_bind.
  rewrite check_dependencies_run, Hn, Hp. cbn [andb]. rewrite Hcv. fold vibe_path.
  rewrite create_default_vibe_image_run.
  destruct (makedirs_parent vibe_path) as [e|]; [auto|].
  destruct (save_error vibe_path) as [e|]; [auto|].
  cbn [disk terminal]. split; [|split; [|reflexivity]].
  - exists default_vibe. rewrite lookup_insert_eq. cbn.
    split; [apply decode_encode|]; apply default_vibe_wf_size.
  - intros p Hne. now rewrite lookup_insert_ne.
Qed.

(** [main] stops before it reads or writes any file when a package is
    missing (status 1, after two lines that name what is missing) and when,
    with neither [--create-vibe] nor [--generate-sf-tiles], one of
    [--tile], [--vibe] and [--output] is absent or empty (status 2). *)
Theorem main_exits_before_touching_the_disk (a : args.Namespace) (s : Session) :
  (numpy_importable && PIL_importable = false ->
   exists missing,
     missing <> [] /\
     main a s
     = (SystemExit 1,
        {| disk := disk s;
           terminal := terminal s ++ [Missing_dependencies missing; Install_with missing] |}))
  /\ (numpy_importable && PIL_importable = true ->
      args.create_vibe a = false -> args.generate_sf_tiles a = false ->
      truthy (args.tile a) && truthy (args.vibe a) && truthy (args.output a) = false ->
      main a s = (SystemExit 2, s)).
Proof.
  split.
  - intros Hdeps. eexists. unfold main. unfold mbind at 1, Cmd_bind.
    rewrite check_dependencies_run, Hdeps. cbv zeta. split; [|reflexivity].
    destruct numpy_importable, PIL_importable; discriminate.
  - intros Hdeps Hcv Hg Hargs. unfold main. unfold mbind at 1, Cmd_bind.
    rewrite check_dependencies_run, Hdeps, Hcv, Hg.
    destruct (truthy (args.tile a)), (truthy (args.vibe a)), (truthy (args.output a));
      try discriminate Hargs; reflexivity.
Qed.


End Main.

Lemma create_vibe_writes_only_the_vibe_witness :
  exists s',
    main (P := simple_pillow) (D := simple_draw) (L := sf_libm) (E := offline)
      (I := installed) create_vibe_args fresh_session = (Returns tt, s')
    /\ terminal s' = [Created_default_vibe_image "assets/skins/cartoon_vibe.png"].
Proof.
  pose proof (create_vibe_writes_only_the_vibe
                (P := simple_pillow) (D := simple_draw) (L := sf_libm) (E := offline)
                (I := installed) create_vibe_args fresh_session
                eq_refl eq_refl eq_refl) as H.
  cbv zeta in H.
  destruct (main create_vibe_args fresh_session) as [[[]|e|code] s'].
  - exists s'. split; [reflexivity|apply H].
  - destruct H as [[H|[_ H]] _]; discriminate H.
  - destruct H.
Defined.

Lemma main_exits_before_touching_the_disk_witness :
  exists missing,
    missing <> [] /\
    main (P := simple_pillow) (D := simple_draw) (L := sf_libm) (E := online)
      (I := without_Pillow) generate_sf_tiles_args fresh_session
    = (SystemExit 1,
       {| disk := disk fresh_session;
          terminal := terminal fresh_session
                      ++ [Missing_dependencies missing; Install_with missing] |}).
Proof.
  exact (proj1 (main_exits_before_touching_the_disk
                  (P := simple_pillow) (D := simple_draw) (L := sf_libm) (E := online)
                  (I := without_Pillow) generate_sf_tiles_args fresh_session) eq_refl).
Defined.


